(** * pdf-qa-chtbot: a shallow embedding of [app.py]

    The module [app.py] is a Streamlit script: it extracts the text of an
    uploaded PDF, hands a question and a bounded prefix of that text to a
    pretrained question-answering pipeline, and keeps a question/answer
    history in the session state.

    The embedding follows the Python text function by function.  Python
    [str] values are [string]s holding their UTF-8 encoding (with
    [str_len] and [str_take] counting code points, as [len] and slicing
    do), Python [float]s are binary64 numbers ([spec_float] with [prec = 53] and
    [emax = 1024]), exceptions are values, and the effects of the script
    (model invocations, widget calls, the session state) are threaded
    through a small state-and-exception monad. *)

From Stdlib Require Import ZArith Lia Bool Ascii.
From Stdlib Require Import SpecFloat.
From Stdlib Require Import DecimalString.
From stdpp Require Import list strings gmap.

Local Open Scope nat_scope.

(** ** Python strings *)

(** A Python [str] is a sequence of code points.  It is held here as its
    UTF-8 encoding, which is how the string literals of this file are
    written: a code point is one byte that is not a continuation byte,
    followed by its continuation bytes (a surrogate takes three bytes
    like its neighbours).  Concatenation, equality and emptiness of the
    encodings are those of the code-point sequences; length and slicing
    count code points, not bytes. *)

(** A continuation byte, [10xxxxxx]. *)
Definition is_continuation (c : ascii) : bool :=
  match c with
  | Ascii _ _ _ _ _ _ false true => true
  | _ => false
  end.

(** [len(s)]: the number of code points of [s]. *)
Fixpoint str_len (s : string) : nat :=
  match s with
  | EmptyString => 0
  | String c s' => if is_continuation c then str_len s' else S (str_len s')
  end.

(** [s[:n]]: the first [n] code points of [s], all of [s] when it has
    fewer. *)
Fixpoint str_take (n : nat) (s : string) : string :=
  match s with
  | EmptyString => EmptyString
  | String c s' =>
      if is_continuation c then String c (str_take n s')
      else match n with
           | O => EmptyString
           | S n' => String c (str_take n' s')
           end
  end.

(** [s] is empty or begins with the first byte of a code point. *)
Definition starts_a_code_point (s : string) : bool :=
  match s with
  | EmptyString => true
  | String c _ => negb (is_continuation c)
  end.

(** [bool(s)] for a [str]: the empty string is falsy. *)
Definition str_truthy (s : string) : bool :=
  match s with
  | EmptyString => false
  | String _ _ => true
  end.

(** [str(n)] for an [int]. *)
Definition str_of_int (z : Z) : string :=
  NilZero.string_of_int (Z.to_int z).

(** ** Python exceptions *)

(** An exception object, as far as the script observes it: its class
    name, whether the class derives from [Exception] (which is what an
    [except Exception] clause tests; [KeyboardInterrupt], [SystemExit] and
    [GeneratorExit] derive from [BaseException] only), and [str(e)]. *)
Record pyexn := PyExn {
  exn_class : string;
  exn_is_Exception : bool;
  exn_str : string
}.

(** The outcome of evaluating a Python expression or call. *)
Inductive res (A : Type) : Type :=
| Ret (a : A)
| Raise (e : pyexn).
Arguments Ret {A} a.
Arguments Raise {A} e.

Definition NameError (name : string) : pyexn :=
  PyExn "NameError" true ("name '" +:+ name +:+ "' is not defined").

Definition AttributeError (msg : string) : pyexn :=
  PyExn "AttributeError" true msg.

Definition TypeError (msg : string) : pyexn :=
  PyExn "TypeError" true msg.

Definition KeyboardInterrupt : pyexn :=
  PyExn "KeyboardInterrupt" false "".

(** ** Python floats (binary64) *)

Definition prec : Z := 53.
Definition emax : Z := 1024.

Abbreviation pyfloat := spec_float.

Definition float_mul : pyfloat -> pyfloat -> pyfloat := SFmul prec emax.

(** [float(n)] for an [int] (exact below [2^53]). *)
Definition float_of_int (n : Z) : pyfloat :=
  binary_normalize prec emax n 0 false.

(** Rounding of the non-negative rational [n / d] ([d > 0]) to an
    integer, ties to even. *)
Definition round_half_even (n d : Z) : Z :=
  let q := (n / d)%Z in
  let r := (n mod d)%Z in
  match (2 * r ?= d)%Z with
  | Lt => q
  | Gt => (q + 1)%Z
  | Eq => if Z.even q then q else (q + 1)%Z
  end.

(** [hundredths m e] is the integer nearest (ties to even) to
    [m * 2^e * 100], the number of hundredths in the decimal string that
    CPython's [round(x, 2)] builds for [x = m * 2^e]. *)
Definition hundredths (m : positive) (e : Z) : Z :=
  match e with
  | Zneg p => round_half_even (Zpos m * 100) (2 ^ Zpos p)
  | _ => (Zpos m * 2 ^ e * 100)%Z
  end.

(** [decimal2 s k]: the binary64 number nearest to [(-1)^s * k / 100],
    i.e. the value CPython reads back from the decimal string. *)
Definition decimal2 (s : bool) (k : Z) : pyfloat :=
  match k with
  | Zpos _ =>
      let '(mz, ez, lz) := SFdiv_core_binary prec emax k 0 100 0 in
      binary_round_aux prec emax s mz ez lz
  | _ => S754_zero s
  end.

(** [round(x, 2)] on a [float]: infinities and NaN round to themselves;
    a finite [x] is rounded correctly (ties to even) to two decimals and
    the decimal is converted back to the nearest binary64 number. *)
Definition py_round2 (x : pyfloat) : pyfloat :=
  match x with
  | S754_finite s m e => decimal2 s (hundredths m e)
  | _ => x
  end.

(** A Python number as it appears in the [confidence] field. *)
Inductive pynum :=
| PyInt (z : Z)
| PyFloat (f : pyfloat).

(** ** Values exchanged with the libraries *)

(** What the question-answering pipeline returns: a dict with (at least)
    the keys ['answer'] and ['score']. *)
Record qa_output := QAOutput {
  out_answer : string;
  out_score : pyfloat
}.

(** The dict built by [answer_question]. *)
Record qa_result := QAResult {
  answer : string;
  confidence : pynum
}.

(** A page of a parsed document and the reader object of PyPDF2:
    [len(reader.pages)], [reader.pages[i]] and [page.extract_text()] may
    each raise. *)
Record pdf_page := PdfPage {
  extract_text : res string
}.

Record pdf_reader := PdfReaderObj {
  pages_len : res nat;
  pages_item : nat -> res pdf_page
}.

(** An uploaded file: its name, its size in bytes, and what
    [PyPDF2.PdfReader] makes of its contents. *)
Record pdf_file := PdfFile {
  file_name : string;
  file_size : N;
  PdfReader : res pdf_reader
}.

(** An entry of [st.session_state.history]: the dict
    [{'question': ..., 'answer': ...}], whose answer may be [None]. *)
Record history_entry := HistoryEntry {
  h_question : string;
  h_answer : option string
}.

(** [st.session_state]: each of the two keys the script uses is absent
    ([None]) or bound. *)
Record session_state := SessionState {
  history : option (list history_entry);
  last_question : option string
}.

(** ** State, trace and exceptions *)

Section App.

(** The pipeline object is a black box with a state of its own: an
    invocation [qa_model(question=q, context=c)] returns a dict or
    raises, and may change that state. *)
Context {MS : Type}.

Definition qa_handle : Type := MS -> string -> string -> MS * res qa_output.

(** [transformers.pipeline(task, model=..., tokenizer=...)]: builds a
    handle or raises. *)
Variable pipeline : string -> string -> string -> res qa_handle.

(** Calls into Streamlit that only draw. *)
Inductive ui_call :=
| st_set_page_config (page_title page_icon layout : string)
| st_title (s : string)
| st_markdown (s : string)
| st_header (s : string)
| st_subheader (s : string)
| st_success (s : string)
| st_json_file_details (name : string) (size : N)
| st_spinner (s : string)
| st_text_area (label text : string)
| st_info (s : string)
| st_caption_confidence (c : pynum)
| st_warning (s : string).

(** What a run does, in order: calls of [pipeline], entries into
    [extract__text_from_pdf] and [answer_question], invocations of the
    model, and drawing. *)
Inductive event :=
| EvPipeline (task model tokenizer : string)
| EvExtract (f : pdf_file)
| EvAnswerQuestion (question context : string) (qa_model : qa_handle)
| EvModel (question context : string)
| EvUi (c : ui_call).

(** The state a run works on: the model's own state, the value cached
    by [st.cache_resource], [st.session_state], and the trace so far. *)
Record world := World {
  w_model : MS;
  w_cache : option qa_handle;
  w_session : session_state;
  w_trace : list event
}.

Definition set_model (ms : MS) (w : world) : world :=
  World ms (w_cache w) (w_session w) (w_trace w).
Definition set_cache (c : option qa_handle) (w : world) : world :=
  World (w_model w) c (w_session w) (w_trace w).
Definition set_session (s : session_state) (w : world) : world :=
  World (w_model w) (w_cache w) s (w_trace w).
Definition log (ev : event) (w : world) : world :=
  World (w_model w) (w_cache w) (w_session w) (w_trace w ++ [ev]).

Definition M (A : Type) : Type := world -> world * res A.

Definition ret {A} (a : A) : M A := fun w => (w, Ret a).

Definition bind {A B} (m : M A) (k : A -> M B) : M B :=
  fun w => match m w with
           | (w', Ret a) => k a w'
           | (w', Raise e) => (w', Raise e)
           end.

Definition raise {A} (e : pyexn) : M A := fun w => (w, Raise e).

Definition lift {A} (r : res A) : M A := fun w => (w, r).

(** [try: body] / [except Exception as e: handler e]: an exception
    whose class does not derive from [Exception] is not caught. *)
Definition try_except_Exception {A} (body : M A) (handler : pyexn -> M A) : M A :=
  fun w => match body w with
           | (w', Ret a) => (w', Ret a)
           | (w', Raise e) =>
               if exn_is_Exception e then handler e w' else (w', Raise e)
           end.

Definition emit (ev : event) : M unit := fun w => (log ev w, Ret tt).

Definition ui (c : ui_call) : M unit := emit (EvUi c).

Definition get_session : M session_state := fun w => (w, Ret (w_session w)).

Definition put_session (s : session_state) : M unit :=
  fun w => (set_session s w, Ret tt).

(** [qa_model(question=q, context=c)]. *)
Definition invoke (qa_model : qa_handle) (q c : string) : M qa_output :=
  fun w =>
    let '(ms, r) := qa_model (w_model w) q c in
    (log (EvModel q c) (set_model ms w), r).

Notation "x <- m ;; k" := (bind m (fun x => k))
  (at level 100, m at level 99, right associativity).
Notation "m ;; k" := (bind m (fun _ => k))
  (at level 100, right associativity).

(** ** [extract__text_from_pdf] *)

(** The loop [for page_num in range(len(pdf_reader.pages))]: each
    round fetches the page, extracts its text and appends it. *)
Fixpoint extract_pages (pdf_reader : pdf_reader) (page_nums : list nat)
    (text : string) : M string :=
  match page_nums with
  | [] => ret text
  | page_num :: rest =>
      page <- lift (pages_item pdf_reader page_num) ;;
      t <- lift (extract_text page) ;;
      extract_pages pdf_reader rest (text +:+ t)
  end.

Definition extract__text_from_pdf (pdf_file : pdf_file) : M string :=
  emit (EvExtract pdf_file) ;;
  try_except_Exception
    (pdf_reader <- lift (PdfReader pdf_file) ;;
     n <- lift (pages_len pdf_reader) ;;
     extract_pages pdf_reader (seq 0 n) "")
    (fun e => ret ("Error extracting text: " +:+ exn_str e)).

(** ** [load_qa_model] *)

Definition qa_task : string := "question-answering".
Definition qa_model_id : string := "distilbert-base-ucased-distilled-squad".
Definition qa_tokenizer_id : string := "distilbert-base-uncased-distilled-squad".

(** The body of [load_qa_model]. *)
Definition load_qa_model_body : M qa_handle :=
  emit (EvPipeline qa_task qa_model_id qa_tokenizer_id) ;;
  qa_pipeline <- lift (pipeline qa_task qa_model_id qa_tokenizer_id) ;;
  ret qa_pipeline.

(** [@st.cache_resource]: the body runs when nothing is cached, and a
    value it returns is kept for later calls. *)
Definition load_qa_model : M qa_handle :=
  fun w =>
    match w_cache w with
    | Some h => (w, Ret h)
    | None =>
        match load_qa_model_body w with
        | (w', Ret h) => (set_cache (Some h) w', Ret h)
        | (w', Raise e) => (w', Raise e)
        end
    end.

(** ** [answer_question] *)

Definition max_length : nat := 512 * 3.

(** The [if len(context) > max_length] statement. *)
Definition truncate_context (context : string) : string :=
  if max_length <? str_len context
  then str_take max_length context
  else context.

(** [round(result['score'] * 100, 2)]. *)
Definition confidence_of_score (score : pyfloat) : pyfloat :=
  py_round2 (float_mul score (float_of_int 100)).

Definition answer_question (question context : string) (qa_model : qa_handle)
    : M qa_result :=
  emit (EvAnswerQuestion question context qa_model) ;;
  try_except_Exception
    (let context := truncate_context context in
     result <- invoke qa_model question context ;;
     ret (QAResult (out_answer result)
                   (PyFloat (confidence_of_score (out_score result)))))
    (fun e => ret (QAResult ("Error: " +:+ exn_str e) (PyInt 0))).

(** ** The module namespace *)

(** What a global name of [app.py] is bound to once the module body
    has run: the four imports and the four [def]s. *)
Inductive global :=
| G_import (what : string)
| G_extract__text_from_pdf
| G_load_qa_model
| G_answer_question
| G_main.

Definition module_globals : gmap string global :=
  list_to_map
    [ ("PyPDF2", G_import "PyPDF2");
      ("pipeline", G_import "transformers.pipeline");
      ("st", G_import "streamlit");
      ("io", G_import "io");
      ("extract__text_from_pdf", G_extract__text_from_pdf);
      ("load_qa_model", G_load_qa_model);
      ("answer_question", G_answer_question);
      ("main", G_main) ].

(** Loading a name that is neither local nor built in: the global
    binding, or [NameError]. *)
Definition load_global (name : string) : M global :=
  match module_globals !! name with
  | Some g => ret g
  | None => raise (NameError name)
  end.

(** Calling a global with the uploaded file as its one argument. *)
Definition call_with_file (g : global) (f : pdf_file) : M string :=
  match g with
  | G_extract__text_from_pdf => extract__text_from_pdf f
  | _ => raise (TypeError "cannot be called with one positional argument")
  end.

(** ** [main] *)

(** Lines 150-162: the answer button.  The result is the local
    variable [result], unbound ([None]) unless the branch that assigns
    it ran. *)
Definition answer_button (button : bool) (user_question pdf_text : string)
    (qa_model : qa_handle) : M (option qa_result) :=
  if button then
    if str_truthy user_question then
      ui (st_spinner "Thinking....") ;;
      result <- answer_question user_question pdf_text qa_model ;;
      ui (st_markdown "### Answer:") ;;
      ui (st_info (answer result)) ;;
      ui (st_caption_confidence (confidence result)) ;;
      ret (Some result)
    else
      ui (st_warning "Please enter a question!") ;;
      ret None
  else ret None.

(** [st.session_state.get('last_question') != user_question]. *)
Definition differs_from_last (s : session_state) (user_question : string) : bool :=
  match last_question s with
  | None => true
  | Some q => negb (String.eqb q user_question)
  end.

(** [st.session_state.history.append(entry)]. *)
Definition history_append (entry : history_entry) : M unit :=
  s <- get_session ;;
  match history s with
  | Some l => put_session (SessionState (Some (l ++ [entry])) (last_question s))
  | None => raise (AttributeError "st.session_state has no attribute history")
  end.

(** Lines 166-175: the history ledger.  [result] is the local
    variable left by the answer button. *)
Definition update_history (user_question pdf_text : string)
    (qa_model : qa_handle) (result : option qa_result) : M unit :=
  s <- get_session ;;
  (match history s with
   | None => put_session (SessionState (Some []) (last_question s))
   | Some _ => ret tt
   end) ;;
  s <- get_session ;;
  if str_truthy user_question && differs_from_last s user_question then
    r <- answer_question user_question pdf_text qa_model ;;
    let result := Some r in
    history_append
      (HistoryEntry user_question
         (match result with Some r => Some (answer r) | None => None end)) ;;
    s <- get_session ;;
    put_session (SessionState (history s) (Some user_question))
  else ret tt.

(** [bool(qa['answer'])]: [None] and the empty string are falsy. *)
Definition answer_truthy (qa : history_entry) : bool :=
  match h_answer qa with
  | Some a => str_truthy a
  | None => false
  end.

(** [history[-5:]]. *)
Definition last5 (l : list history_entry) : list history_entry :=
  drop (length l - 5) l.

(** The loop of lines 182-186 over [enumerate(reversed(history[-5:]))],
    from index [i] on; [total] is [len(st.session_state.history)]. *)
Fixpoint render_history (total i : nat) (qas : list history_entry) : M unit :=
  match qas with
  | [] => ret tt
  | qa :: rest =>
      (if answer_truthy qa then
         ui (st_markdown ("**Q" +:+ str_of_int (Z.of_nat total - Z.of_nat i)
                          +:+ ":** " +:+ h_question qa)) ;;
         ui (st_markdown ("**A:** " +:+ default "" (h_answer qa))) ;;
         ui (st_markdown "")
       else ret tt) ;;
      render_history total (S i) rest
  end.

(** Lines 179-186. *)
Definition show_history : M unit :=
  s <- get_session ;;
  match history s with
  | Some ((_ :: _) as l) =>
      ui (st_markdown "---") ;;
      ui (st_subheader "Chat History") ;;
      render_history (length l) 0 (reverse (last5 l))
  | Some [] => ret tt
  | None => raise (AttributeError "st.session_state has no attribute history")
  end.

(** Lines 130-186: what [main] does with the extracted text.
    [user_question] is what [st.text_input] returns and [button]
    what [st.button] returns in this run. *)
Definition main_with_text (pdf_text user_question : string) (button : bool)
    : M unit :=
  ui (st_text_area "PDF Content" pdf_text) ;;
  ui (st_spinner "Loading AI model...") ;;
  qa_model <- load_qa_model ;;
  ui (st_success "Ready to answer questions!") ;;
  ui (st_subheader "Ask a Question") ;;
  result <- answer_button button user_question pdf_text qa_model ;;
  update_history user_question pdf_text qa_model result ;;
  show_history.

(** One run of [main]; [uploaded_file] is what [st.file_uploader]
    returns.  Line 128 loads the global name [extract_text_from_pdf].
    The last call of the [else] branch, opened on line 192, lacks its
    closing parenthesis in the source, so the file as committed does not
    parse and nothing of it runs; [main] is the function the text
    spells with that call closed, and what is proved of [main] is proved
    of the branch taken when a file is uploaded. *)
Definition main (uploaded_file : option pdf_file) (user_question : string)
    (button : bool) : M unit :=
  ui (st_set_page_config "PDF Question Answering Chatbot" "📄" "wide") ;;
  ui (st_title "📄 PDF Question Answering Chatbot") ;;
  ui (st_markdown "
  Uplod a PDF document and ask question about its content.
  The AI will extract answers directly from your documnet!
  ") ;;
  ui (st_header "Upload PDF") ;;
  (match uploaded_file with
   | Some f =>
       ui (st_success "PDF uploaded successfully!") ;;
       ui (st_json_file_details (file_name f) (file_size f))
   | None => ret tt
   end) ;;
  match uploaded_file with
  | Some f =>
      ui (st_spinner "Extracting text from PDF...") ;;
      extractor <- load_global "extract_text_from_pdf" ;;
      pdf_text <- call_with_file extractor f ;;
      main_with_text pdf_text user_question button
  | None =>
      ui (st_info " Please upload a PDF file from the sidebar to get started!") ;;
      ui (st_markdown "
        ###How to use:
        1. Upload a PDF document using the sidebar
        2. Wait for text extraction
        3. Type your question about the document
        4. Click 'Get Answer' to get AI-powered responses
        ")
  end.

(** ** Reading a trace *)

(** The arguments of the model invocations in a trace, in order. *)
Fixpoint model_calls (tr : list event) : list (string * string) :=
  match tr with
  | [] => []
  | EvModel q c :: tr' => (q, c) :: model_calls tr'
  | _ :: tr' => model_calls tr'
  end.

(** The arguments of the [answer_question] calls in a trace. *)
Fixpoint answer_calls (tr : list event) : list (string * string * qa_handle) :=
  match tr with
  | [] => []
  | EvAnswerQuestion q c h :: tr' => (q, c, h) :: answer_calls tr'
  | _ :: tr' => answer_calls tr'
  end.

(** The files [extract__text_from_pdf] was called on. *)
Fixpoint extract_calls (tr : list event) : list pdf_file :=
  match tr with
  | [] => []
  | EvExtract f :: tr' => f :: extract_calls tr'
  | _ :: tr' => extract_calls tr'
  end.

(** The calls of [pipeline]. *)
Fixpoint pipeline_calls (tr : list event) : list (string * string * string) :=
  match tr with
  | [] => []
  | EvPipeline t m k :: tr' => (t, m, k) :: pipeline_calls tr'
  | _ :: tr' => pipeline_calls tr'
  end.

(** The window the history loop walks,
    [reversed(st.session_state.history[-5:])]. *)
Definition recent_window (l : list history_entry) : list history_entry :=
  reverse (last5 l).

(** The entries the loop draws: those of the window whose answer is
    truthy. *)
Definition rendered_history (l : list history_entry) : list history_entry :=
  filter (fun qa => answer_truthy qa = true) (recent_window l).

(** The calls one entry is drawn with; [i] is its index in the
    window. *)
Definition draw_entry (total i : nat) (qa : history_entry) : list event :=
  [ EvUi (st_markdown ("**Q" +:+ str_of_int (Z.of_nat total - Z.of_nat i)
                       +:+ ":** " +:+ h_question qa));
    EvUi (st_markdown ("**A:** " +:+ default "" (h_answer qa)));
    EvUi (st_markdown "") ].

(** The calls the loop makes from index [i] on. *)
Fixpoint draw_window (total i : nat) (qas : list history_entry) : list event :=
  match qas with
  | [] => []
  | qa :: rest =>
      (if answer_truthy qa then draw_entry total i qa else [])
        ++ draw_window total (S i) rest
  end.

End App.

Arguments qa_handle : clear implicits.
Arguments event : clear implicits.
Arguments world : clear implicits.
Arguments M : clear implicits.

Notation "x <- m ;; k" := (bind m (fun x => k))
  (at level 100, m at level 99, right associativity).
Notation "m ;; k" := (bind m (fun _ => k))
  (at level 100, right associativity).

Arguments answer_question : simpl never.
Arguments extract__text_from_pdf : simpl never.
Arguments truncate_context : simpl never.
Arguments update_history : simpl never.
Arguments show_history : simpl never.
Arguments load_qa_model : simpl never.

(** ** Where an extraction fails *)

(** [reader.pages[i].extract_text()]. *)
Definition page_text (rd : pdf_reader) (i : nat) : res string :=
  match pages_item rd i with
  | Ret page => extract_text page
  | Raise e => Raise e
  end.

(** [extraction_error f e]: parsing the file [f] and extracting its
    pages in order, the first thing that goes wrong raises [e]: opening
    the reader, counting the pages, or fetching or extracting page
    [k] after the pages before it went through. *)
Inductive extraction_error (f : pdf_file) (e : pyexn) : Prop :=
| error_opening :
    PdfReader f = Raise e -> extraction_error f e
| error_counting rd :
    PdfReader f = Ret rd -> pages_len rd = Raise e -> extraction_error f e
| error_on_page rd n k :
    PdfReader f = Ret rd -> pages_len rd = Ret n -> k < n ->
    (forall i, i < k -> exists t, page_text rd i = Ret t) ->
    page_text rd k = Raise e ->
    extraction_error f e.

(** A three-page document whose third page cannot be decoded. *)
Definition damaged_reader : pdf_reader :=
  PdfReaderObj (Ret 3)
    (fun i => match i with
              | 0 => Ret (PdfPage (Ret "The sky is blue. "))
              | 1 => Ret (PdfPage (Ret "Grass is green."))
              | _ => Ret (PdfPage (Raise (PyExn "PdfReadError" true "bad xref")))
              end).

Definition damaged_file : pdf_file :=
  PdfFile "damaged.pdf" 2048 (Ret damaged_reader).

(** A two-page document that parses. *)
Definition sky_file : pdf_file :=
  PdfFile "sky.pdf" 1024
    (Ret (PdfReaderObj (Ret 2)
            (fun i => match i with
                      | 0 => Ret (PdfPage (Ret "The sky is blue. "))
                      | _ => Ret (PdfPage (Ret "Grass is green."))
                      end))).

(** ** Reading the session state *)

(** The history list, empty while the key is absent. *)
Definition entries (s : session_state) : list history_entry :=
  default [] (history s).

(** The entries the history loop draws, each with its index in the
    window [reversed(history[-5:])]. *)
Definition drawn_entries (l : list history_entry) : list (nat * history_entry) :=
  filter (fun p => answer_truthy p.2 = true)
         (zip (seq 0 (length (recent_window l))) (recent_window l)).

(** What [answer_question] makes of the outcome of the model
    invocation. *)
Definition qa_result_of (r : res qa_output) : res qa_result :=
  match r with
  | Ret result =>
      Ret (QAResult (out_answer result)
             (PyFloat (confidence_of_score (out_score result))))
  | Raise e =>
      if exn_is_Exception e
      then Ret (QAResult ("Error: " +:+ exn_str e) (PyInt 0))
      else Raise e
  end.

(** ** Scores and percentages *)

(** A score in [[0, 1]]: a binary64 number between [0.0] and [1.0]. *)
Definition unit_score (s : pyfloat) : Prop :=
  valid_binary prec emax s = true
  /\ SFleb (float_of_int 0) s = true
  /\ SFleb s (float_of_int 1) = true.

(** A float in [[0, 100]]: a zero, or a positive finite number
    [m * 2^e] with [m * 2^e <= 100], the inequality being written
    without fractions ([2^e] moves to the right when [e] is negative). *)
Definition percentage (c : pyfloat) : Prop :=
  match c with
  | S754_zero _ => True
  | S754_finite false m e =>
      (Zpos m * 2 ^ Z.max e 0 <= 100 * 2 ^ Z.max (- e) 0)%Z
  | _ => False
  end.

(** A confidence in [[0, 100]]. *)
Definition confidence_in_range (c : pynum) : Prop :=
  match c with
  | PyInt z => (0 <= z <= 100)%Z
  | PyFloat f => percentage f
  end.

(** A non-negative float whose value [m * 2^e] is at most 100, the
    exponent being negative or zero. *)
Definition at_most_100 (x : pyfloat) : Prop :=
  match x with
  | S754_zero _ => True
  | S754_finite false m e => (e <= 0 /\ Zpos m <= 100 * 2 ^ (- e))%Z
  | _ => False
  end.

(** ** Rounding to two decimals *)

(** [k] is the integer nearest to the fraction [n / d] (with [d > 0]);
    when [n / d] lies half-way between two integers, [k] is the even
    one. *)
Definition nearest_ties_even (n d k : Z) : Prop :=
  (2 * Z.abs (k * d - n) <= d)%Z
  /\ ((2 * Z.abs (k * d - n) = d)%Z -> Z.even k = true).

(** [k] hundredths is the non-negative float [x] rounded to two
    decimals: [k] is the integer nearest, ties to even, to the exact
    value of [100 * x], where [x = m * 2^e] (the fraction is
    [100 * m * 2^e / 1] for [e >= 0] and [100 * m / 2^(-e)] for
    [e < 0]). *)
Definition rounds_to_hundredths (x : pyfloat) (k : Z) : Prop :=
  match x with
  | S754_zero _ => k = 0%Z
  | S754_finite false m e =>
      nearest_ties_even (100 * Zpos m * 2 ^ Z.max e 0) (2 ^ Z.max (- e) 0) k
  | _ => False
  end.

(** [x / y] on floats. *)
Definition float_div : pyfloat -> pyfloat -> pyfloat := SFdiv prec emax.

(** The float [k / 100.0]: the binary64 number nearest to [k / 100]. *)
Definition hundredths_as_float (k : Z) : pyfloat :=
  float_div (float_of_int k) (float_of_int 100).

(** The confidence [c] reports the product [y = score * 100] with two
    decimals: for an integer [k] from 0 to 10000, [k] hundredths is [y]
    rounded to two decimals and [c] is the float [k / 100.0] (the
    negative zero when [y] is the negative zero). *)
Definition reports_two_decimals (y c : pyfloat) : Prop :=
  exists k,
    rounds_to_hundredths y k
    /\ (0 <= k <= 10000)%Z
    /\ (c = hundredths_as_float k \/ (y = S754_zero true /\ c = S754_zero true)).

(** ** Further notions used below *)

(** The strings of a list joined with no separator. *)
Definition str_join (ts : list string) : string :=
  foldr String.append "" ts.

(** A handle that fails with ordinary errors only: every exception an
    invocation raises derives from [Exception]. *)
Definition raises_errors_only {MS} (qa_model : qa_handle MS) : Prop :=
  forall ms q c ms' e,
    qa_model ms q c = (ms', Raise e) -> exn_is_Exception e = true.

(** [run_keeps R m]: whatever [m] does and however it ends, the state it
    leaves is related by [R] to the state it started in. *)
Definition run_keeps {MS A} (R : world MS -> world MS -> Prop) (m : M MS A) : Prop :=
  forall w, R w (m w).1.

(** The history only grows at its end. *)
Definition history_extended {MS} (w w' : world MS) : Prop :=
  entries (w_session w) `prefix_of` entries (w_session w').

(** What the ledger keeps true of the session state: every entry has a
    non-empty question and an answer that is present; the recorded last
    question is the question of the latest entry (absent while the
    history is empty); and no two neighbours in the history carry the
    same question. *)
Definition ledger_consistent (s : session_state) : Prop :=
  Forall (fun qa => str_truthy (h_question qa) = true /\ is_Some (h_answer qa))
         (entries s)
  /\ last_question s = last (h_question <$> entries s)
  /\ (forall i q1 q2,
        (h_question <$> entries s) !! i = Some q1 ->
        (h_question <$> entries s) !! S i = Some q2 ->
        q1 <> q2).

(** A relation between session states, read on the states of a run. *)
Definition on_session {MS} (Rs : session_state -> session_state -> Prop)
    (w w' : world MS) : Prop :=
  Rs (w_session w) (w_session w').

(** Between two states of a run, neither [answer_question] nor the
    model was called. *)
Definition no_new_calls {MS} (w w' : world MS) : Prop :=
  answer_calls (w_trace w') = answer_calls (w_trace w)
  /\ model_calls (w_trace w') = model_calls (w_trace w).

(** Between two session states, the history and the recorded last
    question are the same. *)
Definition same_ledger (s s' : session_state) : Prop :=
  entries s' = entries s /\ last_question s' = last_question s.

(** Between two session states, a consistent ledger stays consistent. *)
Definition consistency_kept (s s' : session_state) : Prop :=
  ledger_consistent s -> ledger_consistent s'.

(** Between two session states, the history only grows at its end. *)
Definition history_grown (s s' : session_state) : Prop :=
  entries s `prefix_of` entries s'.

(** Between two states of a run that started with a cached handle, the
    handle is still cached and [pipeline] was not called. *)
Definition model_stays_loaded {MS} (w w' : world MS) : Prop :=
  is_Some (w_cache w) ->
  w_cache w' = w_cache w
  /\ pipeline_calls (w_trace w') = pipeline_calls (w_trace w).

(** ** Concrete handles and states used in the examples *)

(** A string of [n] copies of the character [c]. *)
Fixpoint str_repeat (c : ascii) (n : nat) : string :=
  match n with
  | O => EmptyString
  | S n' => String c (str_repeat c n')
  end.

(** The string [s] written [n] times. *)
Fixpoint str_times (s : string) (n : nat) : string :=
  match n with
  | O => EmptyString
  | S n' => s +:+ str_times s n'
  end.

(** A model that answers with its whole context and score [1.0]. *)
Definition echo_model : qa_handle unit :=
  fun _ _ c => (tt, Ret (QAOutput c (float_of_int 1))).

(** A model that fails with an ordinary error. *)
Definition failing_model : qa_handle unit :=
  fun _ _ _ => (tt, Raise (PyExn "ValueError" true "bad input")).

(** A model interrupted from the keyboard while it runs. *)
Definition interrupted_model : qa_handle unit :=
  fun _ _ _ => (tt, Raise KeyboardInterrupt).

(** A model with a state: it counts its invocations and answers with
    ["A"] on the first one and ["B"] afterwards. *)
Definition counting_model : qa_handle nat :=
  fun n _ _ =>
    (S n, Ret (QAOutput (if n is O then "A" else "B") (float_of_int 1))).

Definition no_pipeline {MS} : string -> string -> string -> res (qa_handle MS) :=
  fun _ _ _ => Raise (PyExn "OSError" true "not a valid model identifier").

Definition fresh_session : session_state := SessionState None None.

Definition fresh_world {MS} (ms : MS) : world MS :=
  World ms None fresh_session [].

(** A history whose latest entry has an empty answer. *)
Definition blue_entry : history_entry :=
  HistoryEntry "What color is the sky?" (Some "blue").
Definition empty_entry : history_entry :=
  HistoryEntry "What color is the sea?" (Some "").
Definition blue_then_empty : list history_entry := [blue_entry; empty_entry].

(** A model that finds ["blue"] once and an empty span afterwards. *)
Definition fading_model : qa_handle nat :=
  fun n _ _ =>
    (S n, Ret (QAOutput (if n is O then "blue" else "") (float_of_int 1))).

(** A pipeline that hands out the counting model. *)
Definition counting_pipeline : string -> string -> string -> res (qa_handle nat) :=
  fun _ _ _ => Ret counting_model.

(** The state after one run of lines 130-186 on a fresh session, with
    the button pressed. *)
Definition sky_run : world nat * res unit :=
  main_with_text counting_pipeline "The sky is blue." "What color is the sky?"
    true (fresh_world 0).

(** The score [0.57], whose product with [100.0] is
    [56.99999999999999]. *)
Definition score_0_57 : pyfloat := S754_finite false 5134103575202365 (-53).

(** A model that finds ["blue"] with score [0.57]. *)
Definition sure_model : qa_handle unit :=
  fun _ _ _ => (tt, Ret (QAOutput "blue" score_0_57)).

(** A file whose parsing is interrupted from the keyboard. *)
Definition interrupted_file : pdf_file :=
  PdfFile "big.pdf" 1048576 (Raise KeyboardInterrupt).

(** The texts of the two pages of [sky_file]. *)
Definition sky_pages : list string := ["The sky is blue. "; "Grass is green."].

(** The reader inside [sky_file]. *)
Definition sky_reader : pdf_reader :=
  PdfReaderObj (Ret 2)
    (fun i => match i with
              | 0 => Ret (PdfPage (Ret "The sky is blue. "))
              | _ => Ret (PdfPage (Ret "Grass is green."))
              end).

(** * Properties *)

(** ** Strings *)

Lemma str_take_length (n : nat) (s : string) :
  str_len (str_take n s) = Nat.min n (str_len s).
Proof.
  revert n; induction s as [|c s IH]; intros n; cbn [str_take str_len].
  - lia.
  - destruct (is_continuation c) eqn:Hc; cbn [str_len]; rewrite ?Hc.
    + apply IH.
    + destruct n as [|n]; cbn [str_len]; rewrite ?Hc, ?IH; lia.
Qed.

(** [str_take] cuts between two code points. *)
Lemma str_take_prefix (n : nat) (s : string) :
  exists rest, s = str_take n s +:+ rest /\ starts_a_code_point rest = true.
Proof.
  revert n; induction s as [|c s IH]; intros n; cbn [str_take].
  - now exists "".
  - destruct (is_continuation c) eqn:Hc.
    + destruct (IH n) as (rest & Hrest & Hstart). exists rest. split; [|exact Hstart].
      change (String c s = String c (str_take n s +:+ rest)). now f_equal.
    + destruct n as [|n].
      * exists (String c s). split; [reflexivity|]. cbn. now rewrite Hc.
      * destruct (IH n) as (rest & Hrest & Hstart). exists rest.
        split; [|exact Hstart].
        change (String c s = String c (str_take n s +:+ rest)). now f_equal.
Qed.

Lemma str_take_all (n : nat) (s : string) :
  str_len s <= n -> str_take n s = s.
Proof.
  revert n; induction s as [|c s IH]; intros n; cbn [str_take str_len];
    [reflexivity|].
  destruct (is_continuation c).
  - intros H. now rewrite IH.
  - destruct n as [|n]; [lia|]. intros H. rewrite IH by lia. reflexivity.
Qed.

Lemma max_length_eq : max_length = 1536.
Proof. reflexivity. Qed.

Lemma truncate_context_short (context : string) :
  str_len context <= 1536 -> truncate_context context = context.
Proof.
  intros H. unfold truncate_context. rewrite max_length_eq.
  destruct (Nat.ltb_spec 1536 (str_len context)); [lia | reflexivity].
Qed.

Lemma truncate_context_long (context : string) :
  1536 < str_len context ->
  truncate_context context = str_take 1536 context.
Proof.
  intros H. unfold truncate_context. rewrite max_length_eq.
  destruct (Nat.ltb_spec 1536 (str_len context)); [reflexivity | lia].
Qed.

(** ** Traces *)

Section Traces.
Context {MS : Type}.
Implicit Types tr : list (event MS).

Lemma model_calls_app tr1 tr2 :
  model_calls (tr1 ++ tr2) = model_calls tr1 ++ model_calls tr2.
Proof.
  induction tr1 as [|[] tr1 IH]; simpl; auto. now rewrite IH.
Qed.

Lemma answer_calls_app tr1 tr2 :
  answer_calls (tr1 ++ tr2) = answer_calls tr1 ++ answer_calls tr2.
Proof.
  induction tr1 as [|[] tr1 IH]; simpl; auto. now rewrite IH.
Qed.

Lemma extract_calls_app tr1 tr2 :
  extract_calls (tr1 ++ tr2) = extract_calls tr1 ++ extract_calls tr2.
Proof.
  induction tr1 as [|[] tr1 IH]; simpl; auto. now rewrite IH.
Qed.

Lemma pipeline_calls_app tr1 tr2 :
  pipeline_calls (tr1 ++ tr2) = pipeline_calls tr1 ++ pipeline_calls tr2.
Proof.
  induction tr1 as [|[] tr1 IH]; simpl; auto. now rewrite IH.
Qed.

(** What one call of [answer_question] does, whatever the model does:
    it logs its entry, invokes the model once on the truncated
    context, and converts the outcome. *)
Lemma answer_question_run (question context : string) (qa_model : qa_handle MS)
    (w : world MS) :
  let '(ms, r) := qa_model (w_model w) question (truncate_context context) in
  let w' := World ms (w_cache w) (w_session w)
              (w_trace w ++ [EvAnswerQuestion question context qa_model;
                             EvModel question (truncate_context context)]) in
  answer_question question context qa_model w =
    (w', match r with
         | Ret result =>
             Ret (QAResult (out_answer result)
                    (PyFloat (confidence_of_score (out_score result))))
         | Raise e =>
             if exn_is_Exception e
             then Ret (QAResult ("Error: " +:+ exn_str e) (PyInt 0))
             else Raise e
         end).
Proof.
  unfold answer_question, bind, emit, try_except_Exception, invoke, ret, log,
    set_model; simpl.
  destruct (qa_model (w_model w) question (truncate_context context))
    as [ms [result|e]]; simpl; rewrite <- ?app_assoc; simpl; auto.
  destruct (exn_is_Exception e); simpl; auto.
Qed.

End Traces.

(** ** The context handed to the model *)

(** C4: a context longer than 1536 characters reaches the model as its
    first 1536 characters: the one invocation made by [answer_question]
    receives a string of exactly 1536 characters (code points) that is
    a prefix of the original context and ends where a character ends. *)
Theorem long_context_is_cut_to_prefix {MS} (question context : string)
    (qa_model : qa_handle MS) (w : world MS) :
  1536 < str_len context ->
  exists passed rest,
    model_calls (w_trace (answer_question question context qa_model w).1)
      = model_calls (w_trace w) ++ [(question, passed)]
    /\ str_len passed = 1536
    /\ context = passed +:+ rest
    /\ starts_a_code_point rest = true.
Proof.
  intros Hlen.
  destruct (str_take_prefix 1536 context) as (rest & Hrest & Hstart).
  exists (str_take 1536 context), rest.
  pose proof (answer_question_run question context qa_model w) as Hrun.
  destruct (qa_model _ _ _) as [ms r]. rewrite Hrun.
  cbn [fst w_trace]. rewrite model_calls_app, (truncate_context_long _ Hlen).
  repeat split; auto.
  rewrite str_take_length. lia.
Qed.

Lemma long_context_is_cut_to_prefix_witness :
  exists passed rest,
    model_calls (w_trace (answer_question "What is it?" (str_repeat "a" 5000)
                            echo_model (fresh_world tt)).1)
      = model_calls (w_trace (fresh_world tt)) ++ [("What is it?", passed)]
    /\ str_len passed = 1536
    /\ str_repeat "a" 5000 = passed +:+ rest
    /\ starts_a_code_point rest = true.
Proof.
  apply (long_context_is_cut_to_prefix "What is it?" (str_repeat "a" 5000)
           echo_model (fresh_world tt)).
  apply Nat.ltb_lt. vm_compute. reflexivity.
Defined.

(** A text of 2000 two-byte characters is cut after its 1536th
    character, that is after 3072 bytes. *)
Lemma accented_context_is_cut_by_characters :
  model_calls (w_trace (answer_question "What is it?" (str_times "é" 2000)
                          echo_model (fresh_world tt)).1)
    = [("What is it?", str_times "é" 1536)]
  /\ str_len (str_times "é" 1536) = 1536
  /\ String.length (str_times "é" 1536) = 3072.
Proof. repeat split; vm_compute; reflexivity. Qed.

(** C5: a context of at most 1536 characters (code points) reaches the
    model unchanged. *)
Theorem short_context_is_passed_unchanged {MS} (question context : string)
    (qa_model : qa_handle MS) (w : world MS) :
  str_len context <= 1536 ->
  model_calls (w_trace (answer_question question context qa_model w).1)
    = model_calls (w_trace w) ++ [(question, context)].
Proof.
  intros Hlen.
  pose proof (answer_question_run question context qa_model w) as Hrun.
  destruct (qa_model _ _ _) as [ms r]. rewrite Hrun; simpl.
  now rewrite model_calls_app, (truncate_context_short _ Hlen).
Qed.

(** The witness is a text of 400 four-byte characters: 1600 bytes, but
    400 characters, so it is passed whole. *)
Lemma short_context_is_passed_unchanged_witness :
  model_calls (w_trace (answer_question "What color is the sky?"
                          (str_times "📄" 400)
                          echo_model (fresh_world tt)).1)
    = model_calls (w_trace (fresh_world tt))
        ++ [("What color is the sky?", str_times "📄" 400)].
Proof.
  apply (short_context_is_passed_unchanged "What color is the sky?"
           (str_times "📄" 400) echo_model (fresh_world tt)).
  apply Nat.leb_le. vm_compute. reflexivity.
Defined.

(** The same holds of a plain text, and of exactly 1536 characters. *)
Lemma plain_context_is_passed_unchanged :
  truncate_context "The sky is blue. Grass is green."
    = "The sky is blue. Grass is green."
  /\ truncate_context (str_times "é" 1536) = str_times "é" 1536
  /\ String.length (str_times "📄" 400) = 1600.
Proof. repeat split; vm_compute; reflexivity. Qed.

(** ** Failures of the model *)

(** As the claim C3 is worded, every exception the model raises is
    turned into an error answer.  An exception outside [Exception] is
    not: a keyboard interrupt during inference leaves [answer_question]
    as it came. *)
Lemma interrupt_passes_through_answer_question :
  (interrupted_model tt "q" (truncate_context "c")).2 = Raise KeyboardInterrupt
  /\ (answer_question "q" "c" interrupted_model (fresh_world tt)).2
       = Raise KeyboardInterrupt.
Proof. split; reflexivity. Qed.

(** C3 (amended): when the model invocation raises an exception that
    derives from [Exception], [answer_question] returns
    [{answer: "Error: <str(e)>", confidence: 0}] and raises nothing; and
    whatever the model does, one call makes exactly one invocation. *)
Theorem model_error_becomes_error_answer {MS} (question context : string)
    (qa_model : qa_handle MS) (w : world MS) (ms : MS) (e : pyexn) :
  qa_model (w_model w) question (truncate_context context) = (ms, Raise e) ->
  exn_is_Exception e = true ->
  (answer_question question context qa_model w).2
    = Ret (QAResult ("Error: " +:+ exn_str e) (PyInt 0))
  /\ model_calls (w_trace (answer_question question context qa_model w).1)
     = model_calls (w_trace w) ++ [(question, truncate_context context)].
Proof.
  intros Hraise Hexc.
  pose proof (answer_question_run question context qa_model w) as Hrun.
  rewrite Hraise in Hrun. rewrite Hrun; simpl.
  rewrite Hexc, model_calls_app. auto.
Qed.

Lemma model_error_becomes_error_answer_witness :
  (answer_question "q" "c" failing_model (fresh_world tt)).2
    = Ret (QAResult ("Error: " +:+ "bad input") (PyInt 0))
  /\ model_calls (w_trace (answer_question "q" "c" failing_model (fresh_world tt)).1)
     = model_calls (w_trace (fresh_world tt)) ++ [("q", truncate_context "c")].
Proof.
  apply (model_error_becomes_error_answer "q" "c" failing_model (fresh_world tt)
           tt (PyExn "ValueError" true "bad input")); reflexivity.
Defined.

(** Whatever the model does, one call of [answer_question] invokes it
    exactly once. *)
Lemma answer_question_single_attempt {MS} (question context : string)
    (qa_model : qa_handle MS) (w : world MS) :
  model_calls (w_trace (answer_question question context qa_model w).1)
    = model_calls (w_trace w) ++ [(question, truncate_context context)].
Proof.
  pose proof (answer_question_run question context qa_model w) as Hrun.
  destruct (qa_model _ _ _) as [ms r]. rewrite Hrun; simpl.
  now rewrite model_calls_app.
Qed.

(** ** The text extractor *)

Section Extractor.
Context {MS : Type}.

Lemma extract_pages_error (rd : pdf_reader) (e : pyexn) (w : world MS) :
  forall len a j text,
    j < len ->
    (forall i, a <= i < a + j -> exists t, page_text rd i = Ret t) ->
    page_text rd (a + j) = Raise e ->
    extract_pages rd (seq a len) text w = (w, Raise e).
Proof.
  induction len as [|len IH]; intros a j text Hj Hok Hbad; [lia|].
  cbn [seq extract_pages]. unfold bind at 1, lift at 1.
  destruct j as [|j].
  - rewrite Nat.add_0_r in Hbad. unfold page_text in Hbad.
    destruct (pages_item rd a) as [page|e']; [|congruence].
    unfold bind, lift. now rewrite Hbad.
  - destruct (Hok a ltac:(lia)) as [t Ht]. unfold page_text in Ht.
    destruct (pages_item rd a) as [page|e']; [|discriminate].
    unfold bind at 1, lift at 1. rewrite Ht.
    apply (IH (S a) j); [lia | intros i Hi; apply Hok; lia |].
    now replace (S a + j) with (a + S j) by lia.
Qed.

Lemma extract_pages_ok (rd : pdf_reader) (w : world MS) :
  forall len a text,
    (forall i, a <= i < a + len -> exists t, page_text rd i = Ret t) ->
    exists all, extract_pages rd (seq a len) text w = (w, Ret (text +:+ all)).
Proof.
  induction len as [|len IH]; intros a text Hok.
  - exists "". cbn. unfold ret. f_equal. f_equal.
    clear. induction text as [|c text IHt]; [reflexivity|].
    change (String c text = String c (text +:+ "")). now f_equal.
  - cbn [seq extract_pages]. unfold bind at 1, lift at 1.
    destruct (Hok a ltac:(lia)) as [t Ht]. unfold page_text in Ht.
    destruct (pages_item rd a) as [page|e']; [|discriminate].
    unfold bind at 1, lift at 1. rewrite Ht.
    destruct (IH (S a) (text +:+ t)) as [all Hall]; [intros i Hi; apply Hok; lia|].
    exists (t +:+ all). rewrite Hall. f_equal. f_equal.
    clear. induction text as [|c text IHt]; [reflexivity|].
    change (String c ((text +:+ t) +:+ all) = String c (text +:+ t +:+ all)).
    now f_equal.
Qed.

(** C7: whatever the document handle, when an error (an exception
    deriving from [Exception]) occurs while the file is parsed or a
    page's text is extracted, [extract__text_from_pdf] returns the
    string ["Error extracting text: <str(e)>"] and raises nothing. *)
Theorem extraction_error_becomes_text (f : pdf_file) (e : pyexn) (w : world MS) :
  extraction_error f e ->
  exn_is_Exception e = true ->
  extract__text_from_pdf f w
    = (log (EvExtract f) w, Ret ("Error extracting text: " +:+ exn_str e)).
Proof.
  intros Herr Hexc.
  unfold extract__text_from_pdf, bind at 1, emit, try_except_Exception.
  assert (Hbody :
    (pdf_reader <- lift (PdfReader f) ;;
     n <- lift (pages_len pdf_reader) ;;
     extract_pages pdf_reader (seq 0 n) "") (log (EvExtract f) w)
    = (log (EvExtract f) w, Raise e)).
  { destruct Herr as [Hopen | rd Hopen Hlen | rd n k Hopen Hlen Hk Hok Hbad];
      unfold bind at 1, lift at 1; rewrite Hopen; auto;
      unfold bind at 1, lift at 1; rewrite Hlen; auto.
    apply (extract_pages_error rd e _ n 0 k ""); auto.
    intros i Hi. apply Hok. lia. }
  rewrite Hbody, Hexc. reflexivity.
Qed.

(** Without an error the extractor returns the text of the pages. *)
Lemma extraction_without_error_returns_text (f : pdf_file) (rd : pdf_reader)
    (n : nat) (w : world MS) :
  PdfReader f = Ret rd ->
  pages_len rd = Ret n ->
  (forall i, i < n -> exists t, page_text rd i = Ret t) ->
  exists text,
    extract__text_from_pdf f w = (log (EvExtract f) w, Ret text).
Proof.
  intros Hopen Hlen Hok.
  destruct (extract_pages_ok rd (log (EvExtract f) w) n 0 "") as [all Hall].
  { intros i Hi. apply Hok. lia. }
  exists all.
  unfold extract__text_from_pdf, bind at 1, emit, try_except_Exception.
  unfold bind at 1, lift at 1. rewrite Hopen.
  unfold bind at 1, lift at 1. rewrite Hlen.
  now rewrite Hall.
Qed.

End Extractor.

Lemma extraction_error_becomes_text_witness :
  extract__text_from_pdf damaged_file (fresh_world tt)
    = (log (EvExtract damaged_file) (fresh_world tt),
       Ret ("Error extracting text: " +:+ "bad xref")).
Proof.
  apply (extraction_error_becomes_text damaged_file
           (PyExn "PdfReadError" true "bad xref") (fresh_world tt)).
  - apply (error_on_page _ _ damaged_reader 3 2); try reflexivity; [lia|].
    intros [|[|i]] Hi; [eexists; reflexivity .. | lia].
  - reflexivity.
Defined.

(** ** The model identifiers *)

(** C2 (the code departs from it): the one call of [pipeline] made by
    the body of [load_qa_model] names the model
    ["distilbert-base-ucased-distilled-squad"] and the tokenizer
    ["distilbert-base-uncased-distilled-squad"], two different
    strings. *)
Theorem load_qa_model_identifiers_differ {MS}
    (pipeline : string -> string -> string -> res (qa_handle MS)) (w : world MS) :
  pipeline_calls (w_trace (load_qa_model_body pipeline w).1)
    = pipeline_calls (w_trace w)
        ++ [("question-answering",
             "distilbert-base-ucased-distilled-squad",
             "distilbert-base-uncased-distilled-squad")]
  /\ qa_model_id <> qa_tokenizer_id.
Proof.
  split; [|discriminate].
  unfold load_qa_model_body, bind, emit, lift, ret, log; simpl.
  destruct (pipeline _ _ _); simpl; now rewrite pipeline_calls_app.
Qed.

(** ** The name [main] calls *)

Lemma extract_text_from_pdf_unbound :
  module_globals !! "extract_text_from_pdf" = None.
Proof. vm_compute. reflexivity. Qed.

Lemma extract__text_from_pdf_bound :
  module_globals !! "extract__text_from_pdf" = Some G_extract__text_from_pdf.
Proof. vm_compute. reflexivity. Qed.

Lemma other_names_bound :
  module_globals !! "load_qa_model" = Some G_load_qa_model
  /\ module_globals !! "answer_question" = Some G_answer_question.
Proof. split; vm_compute; reflexivity. Qed.

(** C1 (the code departs from it): with a file uploaded, [main] stops
    at line 128 with [NameError: name 'extract_text_from_pdf' is not
    defined]; the extractor this module defines,
    [extract__text_from_pdf], is never called, and no extracted text is
    displayed. *)
Theorem main_never_reaches_the_extractor {MS}
    (pipeline : string -> string -> string -> res (qa_handle MS))
    (f : pdf_file) (user_question : string) (button : bool) (w : world MS) :
  (main pipeline (Some f) user_question button w).2
    = Raise (NameError "extract_text_from_pdf")
  /\ extract_calls (w_trace (main pipeline (Some f) user_question button w).1)
     = extract_calls (w_trace w)
  /\ (forall label text,
        EvUi (st_text_area label text) ∈
          w_trace (main pipeline (Some f) user_question button w).1 ->
        EvUi (st_text_area label text) ∈ w_trace w).
Proof.
  unfold main, bind, ui, emit, load_global.
  rewrite extract_text_from_pdf_unbound. unfold raise, log; cbn.
  repeat split.
  - rewrite !extract_calls_app. cbn. now rewrite !app_nil_r.
  - intros label text Hin.
    repeat (apply elem_of_app in Hin as [Hin | Hin];
            [| apply list_elem_of_singleton in Hin; discriminate]).
    exact Hin.
Qed.

(** On an uploaded two-page document: the run draws the page header and
    the upload notice, then stops with the [NameError]. *)
Lemma main_on_uploaded_document :
  (main counting_pipeline (Some sky_file) "What color is the sky?" true
     (fresh_world 0)).2
    = Raise (PyExn "NameError" true "name 'extract_text_from_pdf' is not defined")
  /\ extract_calls
       (w_trace (main counting_pipeline (Some sky_file) "What color is the sky?"
                   true (fresh_world 0)).1) = []
  /\ model_calls
       (w_trace (main counting_pipeline (Some sky_file) "What color is the sky?"
                   true (fresh_world 0)).1) = [].
Proof. repeat split; vm_compute; reflexivity. Qed.

(** A failure of [pipeline] is not handled: it leaves [load_qa_model]
    and the run, and nothing is cached. *)
Lemma model_load_failure_propagates :
  (main_with_text no_pipeline "The sky is blue." "What color is the sky?" true
     (fresh_world tt)).2
    = Raise (PyExn "OSError" true "not a valid model identifier")
  /\ w_cache (main_with_text no_pipeline "The sky is blue."
                "What color is the sky?" true (fresh_world tt)).1 = None.
Proof. split; vm_compute; reflexivity. Qed.

(** ** The history ledger *)

Section Ledger.
Context {MS : Type}.
Implicit Types (w : world MS) (qa_model : qa_handle MS).

Lemma answer_question_keeps_session question context qa_model w :
  w_session (answer_question question context qa_model w).1 = w_session w
  /\ w_cache (answer_question question context qa_model w).1 = w_cache w.
Proof.
  pose proof (answer_question_run question context qa_model w) as Hrun.
  destruct (qa_model _ _ _) as [ms r]. now rewrite Hrun.
Qed.

(** What lines 166-175 do, in one equation. *)
Lemma update_history_run user_question pdf_text qa_model result w :
  let s := w_session w in
  let w1 := set_session (SessionState (Some (entries s)) (last_question s)) w in
  update_history user_question pdf_text qa_model result w =
    if str_truthy user_question && differs_from_last s user_question then
      match answer_question user_question pdf_text qa_model w1 with
      | (w2, Ret r) =>
          (set_session
             (SessionState
                (Some (entries s ++ [HistoryEntry user_question (Some (answer r))]))
                (Some user_question)) w2,
           Ret tt)
      | (w2, Raise e) => (w2, Raise e)
      end
    else (w1, Ret tt).
Proof.
  destruct w as [ms c [hist last] tr]; cbn [w_session].
  pose proof (answer_question_keeps_session user_question pdf_text qa_model
                (World ms c (SessionState (Some (default [] hist)) last) tr))
    as [Hs Hc].
  unfold update_history, entries, differs_from_last in *.
  destruct hist as [l|]; cbn in *;
    (destruct (str_truthy user_question && _); [|reflexivity]);
    unfold bind at 1;
    destruct (answer_question _ _ _ _) as [[ms2 c2 s2 tr2] [r|e]];
    cbn in *; subst; reflexivity.
Qed.

(** A pass over the ledger completes unless the model lets through an
    exception that [except Exception] does not catch. *)
Lemma update_history_completes user_question pdf_text qa_model result w :
  (forall ms ms' q c e, qa_model ms q c = (ms', Raise e) -> exn_is_Exception e = true) ->
  (update_history user_question pdf_text qa_model result w).2 = Ret tt.
Proof.
  intros Hexc. rewrite update_history_run.
  destruct (str_truthy user_question && _); [|reflexivity].
  set (w1 := set_session _ w).
  pose proof (answer_question_run user_question pdf_text qa_model w1) as Hrun.
  destruct (qa_model _ _ _) as [ms [r|e]] eqn:Hm; rewrite Hrun; [reflexivity|].
  now rewrite (Hexc _ _ _ _ _ Hm).
Qed.

Lemma differs_from_last_same (s : session_state) (q : string) :
  last_question s = Some q -> differs_from_last s q = false.
Proof.
  intros H. unfold differs_from_last. rewrite H.
  now rewrite String.eqb_refl.
Qed.

Lemma differs_from_last_false (s : session_state) (q : string) :
  differs_from_last s q = false -> last_question s = Some q.
Proof.
  unfold differs_from_last. destruct (last_question s) as [q'|]; [|discriminate].
  intros H. apply negb_false_iff, String.eqb_eq in H. now subst.
Qed.

(** One completed pass of the ledger on a non-empty question. *)
Lemma update_history_pass user_question pdf_text qa_model result w w1 :
  str_truthy user_question = true ->
  update_history user_question pdf_text qa_model result w = (w1, Ret tt) ->
  (if differs_from_last (w_session w) user_question
   then exists a, entries (w_session w1)
                  = entries (w_session w) ++ [HistoryEntry user_question a]
   else entries (w_session w1) = entries (w_session w))
  /\ last_question (w_session w1) = Some user_question.
Proof.
  intros Hq. rewrite update_history_run, Hq. cbn [andb].
  destruct (differs_from_last (w_session w) user_question) eqn:Hd.
  - destruct (answer_question _ _ _ _) as [w2 [r|e]]; [|discriminate].
    intros [= <-]. cbn. eauto.
  - intros [= <-]. cbn. split; [reflexivity|].
    now apply differs_from_last_false.
Qed.

(** C8: on a non-empty question, a pass of the ledger appends an
    entry exactly when the question differs from the recorded last
    question (an absent last question differs from every question),
    and leaves the question recorded as the last one; so a second pass
    on the same question appends nothing, and two passes in a row on a
    new question append exactly one entry. *)
Theorem history_appended_iff_question_new user_question pdf_text qa_model
    result1 result2 w w1 w2 :
  str_truthy user_question = true ->
  update_history user_question pdf_text qa_model result1 w = (w1, Ret tt) ->
  update_history user_question pdf_text qa_model result2 w1 = (w2, Ret tt) ->
  ((exists qa, entries (w_session w1) = entries (w_session w) ++ [qa]
               /\ h_question qa = user_question)
     <-> last_question (w_session w) <> Some user_question)
  /\ (last_question (w_session w) = Some user_question ->
      entries (w_session w1) = entries (w_session w))
  /\ last_question (w_session w1) = Some user_question
  /\ entries (w_session w2) = entries (w_session w1)
  /\ (last_question (w_session w) <> Some user_question ->
      length (entries (w_session w2)) = S (length (entries (w_session w)))).
Proof.
  intros Hq H1 H2.
  destruct (update_history_pass _ _ _ _ _ _ Hq H1) as [Happ1 Hlast1].
  destruct (update_history_pass _ _ _ _ _ _ Hq H2) as [Happ2 _].
  rewrite (differs_from_last_same _ _ Hlast1) in Happ2.
  destruct (differs_from_last (w_session w) user_question) eqn:Hd.
  - assert (Hne : last_question (w_session w) <> Some user_question).
    { intros Heq. apply differs_from_last_same in Heq. congruence. }
    destruct Happ1 as [a Ha].
    repeat split; auto.
    + exists (HistoryEntry user_question a). auto.
    + intros Heq. contradiction.
    + intros _. rewrite Happ2, Ha, length_app. cbn. lia.
  - apply differs_from_last_false in Hd.
    repeat split; auto.
    + intros [qa [Hqa _]]. rewrite Happ1 in Hqa.
      apply (f_equal length) in Hqa. rewrite length_app in Hqa. cbn in Hqa. lia.
    + intros Hne. contradiction.
    + intros Hne. contradiction.
Qed.

End Ledger.

Lemma history_appended_iff_question_new_witness :
  let w := fresh_world 0 in
  let w1 := (update_history "What color is the sky?" "The sky is blue."
               counting_model None w).1 in
  let w2 := (update_history "What color is the sky?" "The sky is blue."
               counting_model None w1).1 in
  ((exists qa, entries (w_session w1) = entries (w_session w) ++ [qa]
               /\ h_question qa = "What color is the sky?")
     <-> last_question (w_session w) <> Some "What color is the sky?")
  /\ (last_question (w_session w) = Some "What color is the sky?" ->
      entries (w_session w1) = entries (w_session w))
  /\ last_question (w_session w1) = Some "What color is the sky?"
  /\ entries (w_session w2) = entries (w_session w1)
  /\ (last_question (w_session w) <> Some "What color is the sky?" ->
      length (entries (w_session w2)) = S (length (entries (w_session w)))).
Proof.
  apply (history_appended_iff_question_new "What color is the sky?"
           "The sky is blue." counting_model None None); reflexivity.
Defined.

(** ** The history view *)

Section View.
Context {MS : Type}.
Implicit Types (w : world MS) (l qas : list history_entry).

Lemma last5_suffix l : last5 l `suffix_of` l.
Proof. apply suffix_drop. Qed.

Lemma last5_length l : length (last5 l) = Nat.min 5 (length l).
Proof. unfold last5. rewrite length_drop. lia. Qed.

Lemma recent_window_length l : length (recent_window l) = Nat.min 5 (length l).
Proof. unfold recent_window. now rewrite length_reverse, last5_length. Qed.

Lemma rendered_history_length l : length (rendered_history l) <= 5.
Proof.
  unfold rendered_history.
  etransitivity; [apply length_filter|]. rewrite recent_window_length. lia.
Qed.

Lemma rendered_history_all_truthy l :
  Forall (fun qa => answer_truthy qa = true) (last5 l) ->
  rendered_history l = reverse (last5 l).
Proof.
  intros Hall. unfold rendered_history, recent_window.
  apply Forall_reverse in Hall.
  induction Hall as [|qa qas Hqa _ IH]; [reflexivity|].
  rewrite filter_cons_True by exact Hqa. now f_equal.
Qed.

(** The loop draws the truthy entries of its list and nothing else. *)
Lemma render_history_run total qas : forall i w,
  render_history total i qas w
    = (World (w_model w) (w_cache w) (w_session w)
         (w_trace w ++ draw_window total i qas : list (event MS)),
       Ret tt).
Proof.
  induction qas as [|qa qas IH]; intros i w.
  - cbn. unfold ret. rewrite app_nil_r. now destruct w.
  - cbn [render_history draw_window]. unfold bind at 1.
    destruct (answer_truthy qa).
    + unfold bind, ui, emit, log. cbn. rewrite IH. cbn.
      now rewrite <- !app_assoc.
    + unfold ret. rewrite IH. reflexivity.
Qed.

Lemma draw_window_filter total qas : forall i,
  @draw_window MS total i qas
    = flat_map (fun p => draw_entry total p.1 p.2)
        (filter (fun p => answer_truthy p.2 = true)
                (zip (seq i (length qas)) qas)).
Proof.
  induction qas as [|qa qas IH]; intros i; [reflexivity|].
  cbn [draw_window length seq zip zip_with]. rewrite IH.
  destruct (answer_truthy qa) eqn:Hqa.
  - rewrite filter_cons_True by exact Hqa. reflexivity.
  - rewrite filter_cons_False by (cbn; congruence). reflexivity.
Qed.

Lemma drawn_entries_are_rendered qas : forall i,
  (filter (fun p : nat * history_entry => answer_truthy p.2 = true)
          (zip (seq i (length qas)) qas)).*2
    = filter (fun qa => answer_truthy qa = true) qas.
Proof.
  induction qas as [|qa qas IH]; intros i; [reflexivity|].
  cbn [length seq zip zip_with].
  destruct (answer_truthy qa) eqn:Hqa.
  - rewrite !filter_cons_True by exact Hqa. cbn. now rewrite IH.
  - rewrite !filter_cons_False by (cbn; congruence). apply IH.
Qed.

Lemma draw_window_no_calls total qas : forall i,
  answer_calls (@draw_window MS total i qas) = []
  /\ model_calls (@draw_window MS total i qas) = [].
Proof.
  induction qas as [|qa qas IH]; intros i; [auto|].
  cbn [draw_window]. rewrite answer_calls_app, model_calls_app.
  destruct (IH (S i)) as [-> ->].
  destruct (answer_truthy qa); auto.
Qed.

(** Lines 179-186 on a session whose history is [l]. *)
Lemma show_history_run w l :
  history (w_session w) = Some l ->
  show_history w
    = (World (w_model w) (w_cache w) (w_session w)
         (w_trace w ++
            match l with
            | [] => []
            | _ :: _ =>
                [EvUi (st_markdown "---"); EvUi (st_subheader "Chat History")]
                  ++ draw_window (length l) 0 (recent_window l)
            end),
       Ret tt).
Proof.
  intros Hl. unfold show_history, bind at 1, get_session. rewrite Hl.
  destruct l as [|qa l].
  - unfold ret. rewrite app_nil_r. now destruct w.
  - unfold bind, ui, emit, log. cbn [w_model w_cache w_session w_trace].
    rewrite render_history_run. cbn [w_model w_cache w_session w_trace].
    unfold recent_window. now rewrite <- !app_assoc.
Qed.

(** C9 (amended): the history view draws at most 5 entries; they are
    the entries with a non-empty answer among the last
    [min 5 (len history)] entries of the full history, in reverse
    chronological order, and they are that whole reversed suffix when
    none of its answers is absent or empty. *)
Theorem history_view_is_filtered_recent_suffix w l :
  history (w_session w) = Some l ->
  w_trace (show_history w).1
    = w_trace w ++
        match l with
        | [] => []
        | _ :: _ =>
            [EvUi (st_markdown "---"); EvUi (st_subheader "Chat History")]
              ++ flat_map (fun p => draw_entry (length l) p.1 p.2)
                          (drawn_entries l)
        end
  /\ (drawn_entries l).*2 = rendered_history l
  /\ length (rendered_history l) <= 5
  /\ (exists s, s `suffix_of` l
                /\ length s = Nat.min 5 (length l)
                /\ rendered_history l
                   = filter (fun qa => answer_truthy qa = true) (reverse s)
                /\ (Forall (fun qa => answer_truthy qa = true) s ->
                    rendered_history l = reverse s)).
Proof.
  intros Hl. rewrite (show_history_run w l Hl). cbn [fst w_trace].
  repeat split.
  - destruct l as [|qa l]; [reflexivity|].
    now rewrite draw_window_filter.
  - apply drawn_entries_are_rendered.
  - apply rendered_history_length.
  - exists (last5 l). repeat split.
    + apply last5_suffix.
    + apply last5_length.
    + apply rendered_history_all_truthy.
Qed.

End View.

Lemma history_view_is_filtered_recent_suffix_witness :
  w_trace (show_history
             (World tt None (SessionState (Some blue_then_empty) None) [])).1
    = [] ++ [EvUi (st_markdown "---"); EvUi (st_subheader "Chat History")]
           ++ flat_map (fun p => draw_entry 2 p.1 p.2)
                       (drawn_entries blue_then_empty)
  /\ (drawn_entries blue_then_empty).*2 = rendered_history blue_then_empty
  /\ length (rendered_history blue_then_empty) <= 5
  /\ (exists s, s `suffix_of` blue_then_empty
                /\ length s = Nat.min 5 (length blue_then_empty)
                /\ rendered_history blue_then_empty
                   = filter (fun qa => answer_truthy qa = true) (reverse s)
                /\ (Forall (fun qa => answer_truthy qa = true) s ->
                    rendered_history blue_then_empty = reverse s)).
Proof.
  apply (history_view_is_filtered_recent_suffix
           (World tt None (SessionState (Some blue_then_empty) None) [])
           blue_then_empty).
  reflexivity.
Defined.

(** As the claim C9 is worded, the entries drawn are exactly a suffix of
    the history, reversed.  With an empty answer in the latest entry the
    view draws the entry before it alone, which is no suffix. *)
Lemma empty_answer_breaks_suffix_view :
  rendered_history blue_then_empty = [blue_entry]
  /\ ~ (exists s, s `suffix_of` blue_then_empty
                  /\ rendered_history blue_then_empty = reverse s).
Proof.
  split; [reflexivity|].
  intros [s [[k Hk] Hs]].
  change (rendered_history blue_then_empty) with [blue_entry] in Hs.
  apply (f_equal reverse) in Hs. rewrite reverse_involutive in Hs.
  cbn in Hs. subst s.
  destruct k as [|a [|b k]]; try discriminate.
  apply (f_equal length) in Hk. cbn in Hk. rewrite length_app in Hk.
  cbn in Hk. lia.
Qed.

(** ** One run with the button pressed *)

Section Pass.
Context {MS : Type}.
Variable pipeline : string -> string -> string -> res (qa_handle MS).
Implicit Types (w : world MS) (qa_model : qa_handle MS).

Lemma answer_question_result question context qa_model w :
  answer_question question context qa_model w
    = (World (qa_model (w_model w) question (truncate_context context)).1
         (w_cache w) (w_session w)
         (w_trace w ++ [EvAnswerQuestion question context qa_model;
                        EvModel question (truncate_context context)]),
       qa_result_of (qa_model (w_model w) question (truncate_context context)).2).
Proof.
  pose proof (answer_question_run question context qa_model w) as Hrun.
  destruct (qa_model _ _ _) as [ms r]. exact Hrun.
Qed.

(** Loading the model touches neither the model's state nor the
    session, and calls neither [answer_question] nor the model. *)
Lemma load_qa_model_effect w w1 qa_model :
  load_qa_model pipeline w = (w1, Ret qa_model) ->
  w_model w1 = w_model w
  /\ w_session w1 = w_session w
  /\ answer_calls (w_trace w1) = answer_calls (w_trace w)
  /\ model_calls (w_trace w1) = model_calls (w_trace w).
Proof.
  unfold load_qa_model, load_qa_model_body, bind, emit, lift, ret, log.
  destruct (w_cache w) as [h|].
  - intros [= <- <-]. auto.
  - cbn. destruct (pipeline _ _ _) as [h|e]; [|discriminate].
    intros [= <- <-]. cbn.
    rewrite answer_calls_app, model_calls_app. cbn.
    now rewrite !app_nil_r.
Qed.

(** C10: a run with the button pressed on a non-empty question that
    differs from the recorded last question calls [answer_question]
    twice with the same question, the same full extracted text and the
    same model handle; each call invokes the model, so the answer
    displayed is made from the first invocation and the answer
    recorded in the history from the second. *)
Theorem pressed_button_on_new_question_answers_twice
    pdf_text user_question w w' :
  str_truthy user_question = true ->
  last_question (w_session w) <> Some user_question ->
  main_with_text pipeline pdf_text user_question true w = (w', Ret tt) ->
  exists qa_model r1 r2,
    let context := truncate_context pdf_text in
    let first := qa_model (w_model w) user_question context in
    let second := qa_model first.1 user_question context in
    answer_calls (w_trace w')
      = answer_calls (w_trace w)
          ++ [(user_question, pdf_text, qa_model);
              (user_question, pdf_text, qa_model)]
    /\ model_calls (w_trace w')
       = model_calls (w_trace w)
           ++ [(user_question, context); (user_question, context)]
    /\ qa_result_of first.2 = Ret r1
    /\ qa_result_of second.2 = Ret r2
    /\ w_model w' = second.1
    /\ EvUi (st_info (answer r1)) ∈ w_trace w'
    /\ entries (w_session w')
       = entries (w_session w)
           ++ [HistoryEntry user_question (Some (answer r2))].
Proof.
  intros Hq Hnew.
  assert (Hd : differs_from_last (w_session w) user_question = true).
  { destruct (differs_from_last _ _) eqn:Hd; [reflexivity|].
    now apply differs_from_last_false in Hd. }
  unfold main_with_text, answer_button. rewrite Hq.
  unfold bind at 1 2, ui at 1 2, emit at 1 2.
  unfold bind at 1.
  destruct (load_qa_model pipeline _) as [w1 [qa_model|e]] eqn:Hload;
    [|discriminate].
  apply load_qa_model_effect in Hload as (Hm1 & Hs1 & Ha1 & Hc1).
  cbn in Hm1, Hs1, Ha1, Hc1.
  rewrite answer_calls_app, answer_calls_app, app_nil_r, app_nil_r in Ha1.
  rewrite model_calls_app, model_calls_app, app_nil_r, app_nil_r in Hc1.
  unfold bind at 1 2 3 4 5, ui at 1 2 3, emit at 1 2 3.
  rewrite answer_question_result.
  cbn [w_model w_cache w_session w_trace log].
  rewrite Hm1.
  set (context := truncate_context pdf_text).
  set (first := qa_model (w_model w) user_question context).
  destruct (qa_result_of first.2) as [r1|e1] eqn:Hr1; [|discriminate].
  unfold bind at 1 2 3 4, ui at 1 2 3, emit at 1 2 3, ret at 1.
  cbn [w_model w_cache w_session w_trace log].
  rewrite update_history_run.
  cbn [w_model w_cache w_session w_trace set_session log].
  rewrite Hs1, Hq, Hd. cbn [andb].
  rewrite answer_question_result.
  cbn [w_model w_cache w_session w_trace fst snd set_session log].
  fold context. set (second := qa_model first.1 user_question context).
  destruct (qa_result_of second.2) as [r2|e2] eqn:Hr2; [|discriminate].
  erewrite show_history_run by reflexivity.
  intros [= <-].
  exists qa_model, r1, r2. cbn [w_model w_cache w_session w_trace].
  set (view := match entries (w_session w) ++ _ with [] => [] | _ => _ end).
  assert (Hview : answer_calls view = [] /\ model_calls view = []).
  { subst view. destruct (entries (w_session w) ++ _); [auto|].
    cbn [app answer_calls model_calls].
    destruct (draw_window_no_calls (MS:=MS) (length (h :: l)) (recent_window (h :: l)) 0)
      as [-> ->]. auto. }
  destruct Hview as [Hva Hvc].
  repeat split; auto.
  - rewrite !answer_calls_app, Ha1, Hva. cbn.
    now rewrite !app_nil_r, <- app_assoc.
  - rewrite !model_calls_app, Hc1, Hvc. cbn.
    now rewrite !app_nil_r, <- app_assoc.
  - rewrite !elem_of_app. left. left. left. right.
    apply list_elem_of_singleton. reflexivity.
Qed.

End Pass.

Lemma pressed_button_on_new_question_answers_twice_witness :
  exists qa_model r1 r2,
    let context := truncate_context "The sky is blue." in
    let first := qa_model (w_model (fresh_world 0)) "What color is the sky?" context in
    let second := qa_model first.1 "What color is the sky?" context in
    answer_calls (w_trace sky_run.1)
      = answer_calls (w_trace (fresh_world 0))
          ++ [("What color is the sky?", "The sky is blue.", qa_model);
              ("What color is the sky?", "The sky is blue.", qa_model)]
    /\ model_calls (w_trace sky_run.1)
       = model_calls (w_trace (fresh_world 0))
           ++ [("What color is the sky?", context);
               ("What color is the sky?", context)]
    /\ qa_result_of first.2 = Ret r1
    /\ qa_result_of second.2 = Ret r2
    /\ w_model sky_run.1 = second.1
    /\ EvUi (st_info (answer r1)) ∈ w_trace sky_run.1
    /\ entries (w_session sky_run.1)
       = entries (w_session (fresh_world 0))
           ++ [HistoryEntry "What color is the sky?" (Some (answer r2))].
Proof.
  apply (pressed_button_on_new_question_answers_twice counting_pipeline
           "The sky is blue." "What color is the sky?" (fresh_world 0) sky_run.1).
  - reflexivity.
  - discriminate.
  - vm_compute. reflexivity.
Defined.

(** With a model that keeps state, the answer displayed and the answer
    recorded in the same run differ. *)
Lemma displayed_and_recorded_answers_can_differ :
  EvUi (st_info "A") ∈ w_trace sky_run.1
  /\ entries (w_session sky_run.1)
     = [HistoryEntry "What color is the sky?" (Some "B")]
  /\ model_calls (w_trace sky_run.1)
     = [("What color is the sky?", "The sky is blue.");
        ("What color is the sky?", "The sky is blue.")].
Proof.
  split; [|split; vm_compute; reflexivity].
  vm_compute. do 9 right. left.
Qed.

(** ** Binary64 rounding below one hundred *)

Section Rounding.
Local Open Scope Z_scope.

Lemma digits2_pos_bounds (p : positive) :
  2 ^ (Zpos (digits2_pos p) - 1) <= Zpos p < 2 ^ Zpos (digits2_pos p).
Proof.
  induction p as [p IH|p IH|]; cbn [digits2_pos]; [| |cbn; lia];
    rewrite Pos2Z.inj_succ;
    replace (Z.succ (Zpos (digits2_pos p)) - 1)
      with (Z.succ (Zpos (digits2_pos p) - 1)) by lia;
    rewrite !Z.pow_succ_r by lia; lia.
Qed.

Lemma fexp_binary64 (x : Z) : fexp prec emax x = Z.max (x - 53) (-1074).
Proof. reflexivity. Qed.

(** One shift to the right halves the mantissa and keeps an exact
    record exact when the mantissa is even. *)
Lemma shr_1_spec (mrs : shr_record) :
  0 <= shr_m mrs ->
  shr_m (shr_1 mrs) = shr_m mrs / 2
  /\ (shr_r mrs = false -> shr_s mrs = false -> shr_m mrs mod 2 = 0 ->
      shr_r (shr_1 mrs) = false /\ shr_s (shr_1 mrs) = false).
Proof.
  destruct mrs as [m r s]; cbn [shr_m shr_r shr_s]. intros Hm.
  rewrite <- Z.div2_div.
  destruct m as [|[p|p|]|]; try lia; cbn; split; auto;
    intros -> -> Hmod; auto;
    (rewrite Pos2Z.inj_xI in Hmod || cbn in Hmod);
    try (rewrite Z.add_comm, Z.mul_comm, Z_mod_plus_full in Hmod);
    discriminate.
Qed.

Lemma mod_pow2_split (a n1 n2 : Z) :
  0 <= n1 -> 0 <= n2 ->
  a mod 2 ^ (n1 + n2) = 0 ->
  a mod 2 ^ n1 = 0 /\ (a / 2 ^ n1) mod 2 ^ n2 = 0.
Proof.
  intros H1 H2. rewrite Z.pow_add_r by lia.
  assert (0 < 2 ^ n1) by (apply Z.pow_pos_nonneg; lia).
  assert (0 < 2 ^ n2) by (apply Z.pow_pos_nonneg; lia).
  rewrite Z.rem_mul_r by lia.
  pose proof (Z.mod_pos_bound a (2 ^ n1) ltac:(lia)).
  pose proof (Z.mod_pos_bound (a / 2 ^ n1) (2 ^ n2) ltac:(lia)).
  nia.
Qed.

(** [p] shifts divide the mantissa by [2^p], and an exact record stays
    exact when nothing is shifted out. *)
Lemma iter_shr_1_spec (p : positive) : forall mrs : shr_record,
  0 <= shr_m mrs ->
  shr_m (SpecFloat.iter_pos shr_1 p mrs) = shr_m mrs / 2 ^ Zpos p
  /\ (shr_r mrs = false -> shr_s mrs = false -> shr_m mrs mod 2 ^ Zpos p = 0 ->
      shr_r (SpecFloat.iter_pos shr_1 p mrs) = false
      /\ shr_s (SpecFloat.iter_pos shr_1 p mrs) = false).
Proof.
  induction p as [p IH|p IH|]; intros mrs Hm; cbn [SpecFloat.iter_pos].
  - destruct (shr_1_spec mrs Hm) as [E1 X1].
    assert (H1 : 0 <= shr_m (shr_1 mrs)) by (rewrite E1; apply Z.div_pos; lia).
    destruct (IH _ H1) as [E2 X2].
    assert (H2 : 0 <= shr_m (SpecFloat.iter_pos shr_1 p (shr_1 mrs))).
    { rewrite E2. apply Z.div_pos; [lia|]. apply Z.pow_pos_nonneg; lia. }
    destruct (IH _ H2) as [E3 X3].
    replace (Zpos p~1) with (1 + (Zpos p + Zpos p)) by lia.
    split.
    + rewrite E3, E2, E1, !Z.div_div by (try apply Z.pow_pos_nonneg; lia).
      f_equal. rewrite !Z.pow_add_r, Z.pow_1_r by lia. ring.
    + intros Hr Hs Hmod.
      apply mod_pow2_split in Hmod as [Ma Mb]; [|lia..].
      apply mod_pow2_split in Mb as [Mb Mc]; [|lia..].
      rewrite Z.pow_1_r in *.
      destruct (X1 Hr Hs Ma) as [Hr1 Hs1].
      rewrite <- E1 in Mb, Mc.
      destruct (X2 Hr1 Hs1 Mb) as [Hr2 Hs2].
      rewrite <- E2 in Mc. exact (X3 Hr2 Hs2 Mc).
  - destruct (IH _ Hm) as [E2 X2].
    assert (H2 : 0 <= shr_m (SpecFloat.iter_pos shr_1 p mrs)).
    { rewrite E2. apply Z.div_pos; [lia|]. apply Z.pow_pos_nonneg; lia. }
    destruct (IH _ H2) as [E3 X3].
    replace (Zpos p~0) with (Zpos p + Zpos p) by lia.
    split.
    + rewrite E3, E2, !Z.div_div by (try apply Z.pow_pos_nonneg; lia).
      f_equal. rewrite !Z.pow_add_r by lia. ring.
    + intros Hr Hs Hmod.
      apply mod_pow2_split in Hmod as [Mb Mc]; [|lia..].
      destruct (X2 Hr Hs Mb) as [Hr2 Hs2].
      rewrite <- E2 in Mc. exact (X3 Hr2 Hs2 Mc).
  - rewrite Z.pow_1_r. apply shr_1_spec, Hm.
Qed.

Lemma round_nearest_even_bounds (mx : Z) (lx : location) :
  mx <= round_nearest_even mx lx <= mx + 1.
Proof.
  destruct lx as [|[]]; cbn; try destruct (Z.even mx); lia.
Qed.

Lemma digits_of_small (m e : Z) :
  0 <= m -> e <= 0 -> m <= 100 * 2 ^ (- e) -> Zdigits2 m + e <= 7.
Proof.
  intros Hm He Hle. destruct m as [|p|p]; cbn [Zdigits2]; try lia.
  pose proof (digits2_pos_bounds p) as [Hlo _].
  assert (Hlt : 2 ^ (Zpos (digits2_pos p) - 1) < 2 ^ (7 - e)).
  { replace (7 - e) with (7 + - e) by lia. rewrite Z.pow_add_r by lia.
    change (2 ^ 7) with 128.
    assert (0 < 2 ^ (- e)) by (apply Z.pow_pos_nonneg; lia). lia. }
  apply Z.pow_lt_mono_r_iff in Hlt; lia.
Qed.

Lemma shr_record_of_loc_spec (m : Z) (l : location) :
  shr_m (shr_record_of_loc m l) = m
  /\ loc_of_shr_record (shr_record_of_loc m l) = l.
Proof. destruct l as [|[]]; auto. Qed.

(** Shifting to the target exponent and rounding to nearest keeps a
    mantissa that stands for at most 100 below 100; [l] tells what was
    cut off below the mantissa before, and is exact when the mantissa
    stands for 100 itself. *)
Lemma round_step (m e : Z) (l : location) :
  0 <= m -> e <= 0 -> m <= 100 * 2 ^ (- e) ->
  (m = 100 * 2 ^ (- e) -> l = loc_Exact) ->
  let mrs_e := shr_fexp prec emax m e l in
  let m1 := round_nearest_even (shr_m mrs_e.1) (loc_of_shr_record mrs_e.1) in
  0 <= shr_m mrs_e.1 <= m1 /\ mrs_e.2 <= 0 /\ m1 <= 100 * 2 ^ (- mrs_e.2).
Proof.
  intros Hm He Hle Hexact.
  pose proof (digits_of_small m e Hm He Hle) as Hd.
  destruct (shr_record_of_loc_spec m l) as [Hrm Hrl].
  unfold shr_fexp, shr. rewrite fexp_binary64.
  destruct (Z.max (Zdigits2 m + e - 53) (-1074) - e) as [|p|p] eqn:Hn;
    cbn [fst snd].
  1, 3: rewrite Hrm, Hrl;
    pose proof (round_nearest_even_bounds m l) as Hround;
    (destruct (Z.eq_dec m (100 * 2 ^ (- e))) as [Heq|Hne];
       [rewrite (Hexact Heq) in *; cbn [round_nearest_even] in *; lia | lia]).
  assert (Hm' : 0 <= shr_m (shr_record_of_loc m l)) by lia.
  destruct (iter_shr_1_spec p (shr_record_of_loc m l) Hm') as [Ediv Hex].
  pose proof (round_nearest_even_bounds
                (shr_m (SpecFloat.iter_pos shr_1 p (shr_record_of_loc m l)))
                (loc_of_shr_record
                   (SpecFloat.iter_pos shr_1 p (shr_record_of_loc m l))))
    as Hround.
  rewrite Hrm in Ediv, Hex.
  assert (Hp : 0 < 2 ^ Zpos p) by (apply Z.pow_pos_nonneg; lia).
  assert (Hfloor : 0 <= m / 2 ^ Zpos p) by (apply Z.div_pos; lia).
  assert (He' : e + Zpos p <= 0) by lia.
  assert (Hscale : 2 ^ (- e) = 2 ^ Zpos p * 2 ^ (- (e + Zpos p))).
  { rewrite <- Z.pow_add_r by lia. f_equal. lia. }
  assert (Hk : 0 < 2 ^ (- (e + Zpos p))) by (apply Z.pow_pos_nonneg; lia).
  rewrite Ediv in *. repeat split; try lia.
  destruct (Z.eq_dec m (100 * 2 ^ (- e))) as [Heq|Hne].
  - rewrite (Hexact Heq) in *. cbn [shr_record_of_loc shr_r shr_s] in Hex.
    assert (Hmod : m mod 2 ^ Zpos p = 0).
    { rewrite Heq, Hscale.
      replace (100 * (2 ^ Zpos p * 2 ^ (- (e + Zpos p))))
        with (100 * 2 ^ (- (e + Zpos p)) * 2 ^ Zpos p) by ring.
      apply Z_mod_mult. }
    destruct (Hex eq_refl eq_refl Hmod) as [Hr Hs].
    destruct (SpecFloat.iter_pos shr_1 p _) as [m' r' s'].
    cbn [shr_m shr_r shr_s] in *. subst r' s'. cbn.
    subst m'. apply Z.div_le_upper_bound; [lia|]. rewrite Hscale in Hle. lia.
  - assert (m / 2 ^ Zpos p < 100 * 2 ^ (- (e + Zpos p))); [|lia].
    apply Z.div_lt_upper_bound; [lia|]. rewrite Hscale in Hle, Hne. lia.
Qed.

(** Rounding a positive mantissa that stands for at most 100 gives a
    float that is at most 100, never an infinity. *)
Lemma binary_round_aux_at_most_100 (mx ex : Z) (lx : location) :
  0 <= mx -> ex <= 0 -> mx <= 100 * 2 ^ (- ex) ->
  (mx = 100 * 2 ^ (- ex) -> lx = loc_Exact) ->
  at_most_100 (binary_round_aux prec emax false mx ex lx).
Proof.
  intros Hm He Hle Hexact.
  destruct (round_step mx ex lx Hm He Hle Hexact) as ([H0 H1] & He1 & Hle1).
  unfold binary_round_aux.
  destruct (shr_fexp prec emax mx ex lx) as [mrs1 e1].
  cbn [fst snd] in *.
  set (m1 := round_nearest_even (shr_m mrs1) (loc_of_shr_record mrs1)) in *.
  destruct (round_step m1 e1 loc_Exact ltac:(lia) He1 Hle1 ltac:(auto))
    as ([H2 H3] & He2 & Hle2).
  destruct (shr_fexp prec emax m1 e1 loc_Exact) as [mrs2 e2].
  cbn [fst snd] in *.
  destruct (shr_m mrs2) as [|m2|m2]; cbn; try lia.
  destruct (Z.leb_spec e2 (emax - prec)) as [_|Hbig];
    [cbn; lia | unfold emax, prec in Hbig; lia].
Qed.

Lemma compare_cont_Eq_le (m n : positive) :
  match Pos.compare_cont Eq m n with Gt => false | _ => true end = true ->
  Zpos m <= Zpos n.
Proof.
  intros H. change (Pos.compare_cont Eq m n) with (Pos.compare m n) in H.
  destruct (Pos.compare_spec m n); try lia.
Qed.

Lemma float_100_eq : float_of_int 100 = S754_finite false 7036874417766400 (-46).
Proof. reflexivity. Qed.

Lemma float_1_eq : float_of_int 1 = S754_finite false 4503599627370496 (-52).
Proof. reflexivity. Qed.

(** The product of a score in [[0, 1]] with [100.0] is at most 100. *)
Lemma float_mul_100_at_most_100 (s : pyfloat) :
  unit_score s -> at_most_100 (float_mul s (float_of_int 100)).
Proof.
  intros (Hvalid & Hlo & Hhi). rewrite float_1_eq in Hhi. rewrite float_100_eq.
  destruct s as [sg|sg| |sg m e]; try (destruct sg; discriminate);
    [exact I | discriminate |].
  destruct sg; [discriminate|].
  unfold float_mul, SFmul. cbn [xorb].
  cbn [valid_binary] in Hvalid. unfold bounded, canonical_mantissa in Hvalid.
  apply andb_prop in Hvalid as [Hcanon _]. apply Z.eqb_eq in Hcanon.
  rewrite fexp_binary64 in Hcanon.
  pose proof (digits2_pos_bounds m) as [_ Hdig].
  assert (H53 : Zpos m < 2 ^ 53).
  { eapply Z.lt_le_trans; [exact Hdig|]. apply Z.pow_le_mono_r; lia. }
  unfold SFleb, SFcompare in Hhi.
  assert (Hbound : e <= -52 /\ Zpos m <= 2 ^ (- e)).
  { destruct (Z.compare_spec e (-52)) as [->|Hlt|Hgt]; [| |discriminate].
    - split; [lia|]. change (2 ^ (- -52)) with 4503599627370496.
      now apply compare_cont_Eq_le in Hhi.
    - split; [lia|]. transitivity (2 ^ 53); [lia|].
      apply Z.pow_le_mono_r; lia. }
  destruct Hbound as [He Hm].
  apply binary_round_aux_at_most_100; try lia; auto.
  replace (- (e + -46)) with (46 + - e) by lia.
  rewrite Z.pow_add_r, Pos2Z.inj_mul by lia.
  change (2 ^ 46) with 70368744177664.
  assert (0 < 2 ^ (- e)) by (apply Z.pow_pos_nonneg; lia). nia.
Qed.

Lemma hundredths_at_most_10000 (m : positive) (e : Z) :
  e <= 0 -> Zpos m <= 100 * 2 ^ (- e) -> 0 <= hundredths m e <= 10000.
Proof.
  intros He Hle. unfold hundredths. destruct e as [|p|p]; try lia.
  change (- Zneg p) with (Zpos p) in Hle. unfold round_half_even.
  assert (Hd : 0 < 2 ^ Zpos p) by (apply Z.pow_pos_nonneg; lia).
  pose proof (Z.div_mod (Zpos m * 100) (2 ^ Zpos p) ltac:(lia)) as Hdm.
  pose proof (Z.mod_pos_bound (Zpos m * 100) (2 ^ Zpos p) Hd) as Hb.
  assert (Hq0 : 0 <= Zpos m * 100 / 2 ^ Zpos p) by (apply Z.div_pos; lia).
  assert (Hq : Zpos m * 100 / 2 ^ Zpos p <= 10000).
  { apply Z.div_le_upper_bound; lia. }
  assert (Hfull : Zpos m * 100 / 2 ^ Zpos p = 10000 ->
                  (Zpos m * 100) mod 2 ^ Zpos p = 0) by nia.
  destruct (Z.compare_spec (2 * ((Zpos m * 100) mod 2 ^ Zpos p)) (2 ^ Zpos p));
    try destruct (Z.even _); lia.
Qed.

Lemma at_most_100_percentage (x : pyfloat) : at_most_100 x -> percentage x.
Proof.
  destruct x as [sg|sg| |[|] m e]; cbn [at_most_100 percentage]; auto.
  intros [He Hm].
  rewrite (Z.max_r e 0), (Z.max_l (- e) 0), Z.pow_0_r by lia. lia.
Qed.

(** Every number of hundredths from 0 to 10000 is read back as a
    float that is at most 100. *)
Lemma decimal2_at_most_100 (sg : bool) (k : Z) :
  0 <= k <= 10000 -> (k = 0 \/ sg = false) -> at_most_100 (decimal2 sg k).
Proof.
  intros Hk Hsg. destruct k as [|k|k]; try lia; [exact I|].
  destruct Hsg as [Hk0 | ->]; [discriminate|].
  unfold decimal2, SFdiv_core_binary.
  rewrite fexp_binary64.
  set (e' := Z.min (Z.max (Zdigits2 (Zpos k) + 0 - (Zdigits2 100 + 0) - 53) (-1074))
                   (0 - 0)).
  assert (He' : e' <= 0) by (subst e'; lia).
  set (m' := match 0 - 0 - e' with
             | Zpos _ => Z.shiftl (Zpos k) (0 - 0 - e')
             | 0 => Zpos k
             | Zneg _ => 0
             end).
  assert (Hm' : m' = Zpos k * 2 ^ (- e')).
  { subst m'. replace (0 - 0 - e') with (- e') by lia.
    destruct (- e') as [|p|p] eqn:Hs; try lia.
    apply Z.shiftl_mul_pow2. lia. }
  assert (Hpow : 0 < 2 ^ (- e')) by (apply Z.pow_pos_nonneg; lia).
  pose proof (Z_div_mod m' 100 ltac:(lia)) as Hdiv.
  destruct (Z.div_eucl m' 100) as [q r]. destruct Hdiv as [Hqr Hr].
  assert (Hkp : Zpos k * 2 ^ (- e') <= 10000 * 2 ^ (- e')).
  { apply Z.mul_le_mono_nonneg_r; lia. }
  apply binary_round_aux_at_most_100; try lia.
  intros Hq.
  assert (r = 0) by lia. subst r. reflexivity.
Qed.

End Rounding.

(** ** Rounding to hundredths and reading the decimal back *)

Section Hundredths.
Local Open Scope Z_scope.

(** Rounding half to even gives the nearest integer, the even one on a
    tie. *)
Lemma round_half_even_nearest (n d : Z) :
  0 < d -> nearest_ties_even n d (round_half_even n d).
Proof.
  intros Hd. unfold nearest_ties_even, round_half_even.
  pose proof (Z.div_mod n d ltac:(lia)) as Hdm.
  pose proof (Z.mod_pos_bound n d Hd) as Hb.
  set (q := n / d) in *. set (r := n mod d) in *.
  destruct (Z.compare_spec (2 * r) d) as [Heq|Hlt|Hgt].
  - destruct (Z.even q) eqn:Hev.
    + replace (q * d - n) with (- r) by lia. rewrite Z.abs_opp, Z.abs_eq by lia.
      split; [lia | auto].
    + replace ((q + 1) * d - n) with (d - r) by lia. rewrite Z.abs_eq by lia.
      split; [lia|]. intros _. rewrite Z.even_add, Hev. reflexivity.
  - replace (q * d - n) with (- r) by lia. rewrite Z.abs_opp, Z.abs_eq by lia.
    split; lia.
  - replace ((q + 1) * d - n) with (d - r) by lia. rewrite Z.abs_eq by lia.
    split; lia.
Qed.

(** [hundredths] is the exact value rounded to two decimals. *)
Lemma hundredths_rounds (m : positive) (e : Z) :
  rounds_to_hundredths (S754_finite false m e) (hundredths m e).
Proof.
  unfold rounds_to_hundredths, hundredths. destruct e as [|p|p].
  - change (2 ^ Z.max 0 0) with 1. change (2 ^ Z.max (- 0) 0) with 1.
    unfold nearest_ties_even.
    replace (Zpos m * 2 ^ 0 * 100 * 1 - 100 * Zpos m * 1) with 0
      by (change (2 ^ 0) with 1; lia).
    cbn. split; [lia | discriminate].
  - rewrite (Z.max_l (Zpos p) 0), (Z.max_r (- Zpos p) 0), Z.pow_0_r by lia.
    unfold nearest_ties_even.
    replace (Zpos m * 2 ^ Zpos p * 100 * 1 - 100 * Zpos m * 2 ^ Zpos p) with 0
      by lia.
    cbn. split; [lia | discriminate].
  - rewrite (Z.max_r (Zneg p) 0), Z.pow_0_r by lia.
    change (- Zneg p) with (Zpos p). rewrite (Z.max_l (Zpos p) 0) by lia.
    replace (100 * Zpos m * 1) with (Zpos m * 100) by lia.
    apply round_half_even_nearest. apply Z.pow_pos_nonneg; lia.
Qed.

Lemma div_eucl_pair (a b : Z) : Z.div_eucl a b = (a / b, a mod b).
Proof. unfold Z.div, Z.modulo. now destruct (Z.div_eucl a b). Qed.

Lemma iter_xO_spec (m d : positive) :
  Zpos (Pos.iter xO m d) = Zpos m * 2 ^ Zpos d
  /\ Zpos (digits2_pos (Pos.iter xO m d)) = Zpos (digits2_pos m) + Zpos d.
Proof.
  induction d as [|d IH] using Pos.peano_ind.
  - cbn [Pos.iter digits2_pos]. rewrite Z.pow_1_r. lia.
  - rewrite Pos.iter_succ. cbn [digits2_pos]. destruct IH as [IHv IHd].
    rewrite Pos2Z.inj_xO, IHv, !Pos2Z.inj_succ, IHd, Z.pow_succ_r by lia. lia.
Qed.

(** [float(k)] for a positive [k] below [2^53]: the mantissa is [k]
    shifted up to 53 digits. *)
Lemma float_of_int_shape (k : positive) :
  Zpos k < 2 ^ 53 ->
  exists m : positive,
    float_of_int (Zpos k) = S754_finite false m (Zpos (digits2_pos k) - 53)
    /\ Zpos m = Zpos k * 2 ^ (53 - Zpos (digits2_pos k))
    /\ Zpos (digits2_pos m) = 53.
Proof.
  intros Hk.
  pose proof (digits2_pos_bounds k) as [Hlo _].
  assert (Hd : Zpos (digits2_pos k) <= 53).
  { assert (Hlt : 2 ^ (Zpos (digits2_pos k) - 1) < 2 ^ 53) by lia.
    apply Z.pow_lt_mono_r_iff in Hlt; lia. }
  unfold float_of_int, binary_normalize, binary_round.
  rewrite fexp_binary64, Z.add_0_r.
  replace (Z.max (Zpos (digits2_pos k) - 53) (-1074))
    with (Zpos (digits2_pos k) - 53) by lia.
  unfold shl_align. rewrite Z.sub_0_r.
  assert (Hshape : exists m : positive,
            (match Zpos (digits2_pos k) - 53 with
             | Zneg d => (Pos.iter xO k d, Zpos (digits2_pos k) - 53)
             | _ => (k, 0)
             end) = (m, Zpos (digits2_pos k) - 53)
            /\ Zpos m = Zpos k * 2 ^ (53 - Zpos (digits2_pos k))
            /\ Zpos (digits2_pos m) = 53).
  { destruct (Zpos (digits2_pos k) - 53) as [|d|d] eqn:Hdiff; try lia.
    - exists k. replace (53 - Zpos (digits2_pos k)) with 0 by lia.
      rewrite Z.pow_0_r. repeat split; lia.
    - exists (Pos.iter xO k d). destruct (iter_xO_spec k d) as [Hv Hdig].
      replace (53 - Zpos (digits2_pos k)) with (Zpos d) by lia.
      repeat split; lia. }
  destruct Hshape as (m & -> & Hm & Hdm). exists m. split; [|auto].
  set (e := Zpos (digits2_pos k) - 53) in *.
  unfold binary_round_aux, shr_fexp. cbn [Zdigits2 shr_record_of_loc].
  rewrite fexp_binary64, Hdm.
  replace (Z.max (53 + e - 53) (-1074) - e) with 0 by lia.
  cbn [shr shr_m loc_of_shr_record round_nearest_even Zdigits2 shr_record_of_loc].
  rewrite fexp_binary64, Hdm.
  replace (Z.max (53 + e - 53) (-1074) - e) with 0 by lia.
  cbn [shr shr_m].
  destruct (Z.leb_spec e (emax - prec)) as [_|Hbig];
    [reflexivity | unfold emax, prec in Hbig; lia].
Qed.

Lemma new_location_scaled (r c : Z) :
  0 < c -> new_location (100 * c) (r * c) = new_location 100 r.
Proof.
  intros Hc. unfold new_location.
  replace (Z.even (100 * c)) with true
    by (rewrite Z.even_mul; reflexivity).
  change (Z.even 100) with true. unfold new_location_even.
  destruct (Z.eqb_spec r 0) as [->|Hr].
  - reflexivity.
  - destruct (Z.eqb_spec (r * c) 0) as [H0|_]; [nia|].
    f_equal. replace (2 * (r * c)) with (2 * r * c) by ring.
    symmetry. apply Zmult_compare_compat_r. lia.
Qed.

(** Dividing the normalised mantissas gives the quotient, exponent and
    location of dividing [k] by [100]. *)
Lemma div_core_normalised (k m : positive) :
  Zpos (digits2_pos k) <= 53 ->
  Zpos m = Zpos k * 2 ^ (53 - Zpos (digits2_pos k)) ->
  Zpos (digits2_pos m) = 53 ->
  SFdiv_core_binary prec emax (Zpos m) (Zpos (digits2_pos k) - 53)
    7036874417766400 (-46)
  = SFdiv_core_binary prec emax (Zpos k) 0 100 0.
Proof.
  intros Hd Hm Hdm. unfold SFdiv_core_binary. cbn [Zdigits2].
  rewrite !fexp_binary64, Hdm.
  change (Zpos (digits2_pos 7036874417766400)) with 53.
  change (Zpos (digits2_pos 100)) with 7.
  set (dk := Zpos (digits2_pos k)) in *.
  assert (Hdk : 1 <= dk) by (subst dk; lia).
  replace (Z.min (Z.max (53 + (dk - 53) - (53 + -46) - 53) (-1074))
                 (dk - 53 - -46)) with (dk - 60) by lia.
  replace (Z.min (Z.max (dk + 0 - (7 + 0) - 53) (-1074)) (0 - 0))
    with (dk - 60) by lia.
  replace (dk - 53 - -46 - (dk - 60)) with 53 by lia.
  replace (0 - 0 - (dk - 60)) with (60 - dk) by lia.
  destruct (60 - dk) as [|s|s] eqn:Hs; try lia.
  rewrite !Z.shiftl_mul_pow2, !div_eucl_pair by lia.
  assert (Hscale : Zpos m * 2 ^ 53 = Zpos k * 2 ^ Zpos s * 2 ^ 46).
  { rewrite Hm, <- Hs, <- !Z.mul_assoc, <- !Z.pow_add_r by lia.
    f_equal. f_equal. lia. }
  rewrite Hscale. change 7036874417766400 with (100 * 2 ^ 46).
  rewrite Z.div_mul_cancel_r, Z.mul_mod_distr_r by lia.
  rewrite new_location_scaled by lia. reflexivity.
Qed.

(** Reading [k] hundredths back is the division [k / 100.0]. *)
Lemma decimal2_is_division (k : Z) :
  0 <= k < 2 ^ 53 -> decimal2 false k = hundredths_as_float k.
Proof.
  intros Hk. destruct k as [|k|k]; try lia; [reflexivity|].
  destruct (float_of_int_shape k ltac:(lia)) as (m & Hfloat & Hm & Hdm).
  pose proof (digits2_pos_bounds k) as [Hlo _].
  assert (Hd : Zpos (digits2_pos k) <= 53).
  { assert (Hlt : 2 ^ (Zpos (digits2_pos k) - 1) < 2 ^ 53) by lia.
    apply Z.pow_lt_mono_r_iff in Hlt; lia. }
  unfold hundredths_as_float, float_div. rewrite Hfloat, float_100_eq.
  unfold decimal2, SFdiv. cbn [xorb].
  now rewrite (div_core_normalised k m Hd Hm Hdm).
Qed.

End Hundredths.

(** ** The confidence *)

Lemma confidence_of_unit_score (s : pyfloat) :
  unit_score s ->
  percentage (confidence_of_score s)
  /\ reports_two_decimals (float_mul s (float_of_int 100)) (confidence_of_score s).
Proof.
  intros Hs. apply float_mul_100_at_most_100 in Hs.
  unfold confidence_of_score, reports_two_decimals.
  destruct (float_mul s (float_of_int 100)) as [sg|sg| |sg m e];
    cbn [at_most_100 py_round2] in *; try contradiction.
  - split; [exact I|].
    exists 0%Z. repeat split; try lia.
    destruct sg; [right; auto | left; reflexivity].
  - destruct sg; [contradiction|]. destruct Hs as [He Hm].
    pose proof (hundredths_at_most_10000 m e He Hm) as Hk.
    split; [apply at_most_100_percentage, decimal2_at_most_100; auto|].
    exists (hundredths m e). repeat split; try lia.
    + apply hundredths_rounds.
    + apply hundredths_rounds.
    + left. apply decimal2_is_division. lia.
Qed.

(** C6: the confidence of every result [answer_question] returns, the
    model's score being in [[0, 1]], lies in [[0, 100]] and is rounded
    to two decimals.  After a successful invocation it is
    [round(score * 100, 2)]: with [y] the float product [score * 100],
    it is the float [k / 100.0] for the integer [k] nearest (ties to
    even) to [100 * y], and [0 <= k <= 10000].  After a failed
    invocation it is [0].  A score of exactly [0.0] gives [0.0] and a
    score of exactly [1.0] gives [100.0]. *)
Theorem confidence_is_rounded_percentage {MS} (question context : string)
    (qa_model : qa_handle MS) (w : world MS) (r : qa_result) :
  (answer_question question context qa_model w).2 = Ret r ->
  (forall out,
      (qa_model (w_model w) question (truncate_context context)).2 = Ret out ->
      unit_score (out_score out)) ->
  confidence_in_range (confidence r)
  /\ match (qa_model (w_model w) question (truncate_context context)).2 with
     | Ret out =>
         exists c,
           confidence r = PyFloat c
           /\ reports_two_decimals
                (float_mul (out_score out) (float_of_int 100)) c
     | Raise e => confidence r = PyInt 0
     end
  /\ confidence_of_score (float_of_int 0) = float_of_int 0
  /\ confidence_of_score (float_of_int 1) = float_of_int 100.
Proof.
  intros Hret Hscore. rewrite answer_question_result in Hret. cbn [snd] in Hret.
  destruct (qa_model (w_model w) question (truncate_context context)).2
    as [out|e]; cbn [qa_result_of] in Hret.
  - injection Hret as <-. cbn [confidence confidence_in_range].
    destruct (confidence_of_unit_score (out_score out) (Hscore out eq_refl))
      as [Hrange Hreports].
    repeat split; try exact Hrange. eauto.
  - destruct (exn_is_Exception e); [|discriminate].
    injection Hret as <-. cbn. repeat split; try lia; reflexivity.
Qed.

(** The witness rounds: the score [0.57] gives the product
    [56.99999999999999], which is reported as [57.0]. *)
Lemma confidence_is_rounded_percentage_witness :
  confidence_in_range (PyFloat (float_of_int 57))
  /\ match (sure_model (w_model (fresh_world tt)) "What color is the sky?"
              (truncate_context "The sky is blue.")).2 with
     | Ret out =>
         exists c,
           PyFloat (float_of_int 57) = PyFloat c
           /\ reports_two_decimals
                (float_mul (out_score out) (float_of_int 100)) c
     | Raise e => PyFloat (float_of_int 57) = PyInt 0
     end
  /\ confidence_of_score (float_of_int 0) = float_of_int 0
  /\ confidence_of_score (float_of_int 1) = float_of_int 100.
Proof.
  apply (confidence_is_rounded_percentage "What color is the sky?"
           "The sky is blue." sure_model (fresh_world tt)
           (QAResult "blue" (PyFloat (float_of_int 57)))).
  - vm_compute. reflexivity.
  - intros out [= <-]. vm_compute. auto.
Defined.

(** The product of [0.57] with [100.0] lies below 57, and 5700 is the
    only number of hundredths it rounds to. *)
Lemma confidence_of_0_57 :
  float_mul score_0_57 (float_of_int 100)
    = S754_finite false 8022036836253695 (-47)
  /\ confidence_of_score score_0_57 = float_of_int 57
  /\ forall k,
       rounds_to_hundredths (float_mul score_0_57 (float_of_int 100)) k ->
       k = 5700%Z.
Proof.
  split; [vm_compute; reflexivity|]. split; [vm_compute; reflexivity|].
  intros k Hk.
  change (float_mul score_0_57 (float_of_int 100))
    with (S754_finite false 8022036836253695 (-47)) in Hk.
  unfold rounds_to_hundredths, nearest_ties_even in Hk.
  change (2 ^ Z.max (-47) 0)%Z with 1%Z in Hk.
  change (2 ^ Z.max (- -47) 0)%Z with 140737488355328%Z in Hk.
  lia.
Qed.

(** A third is reported as 33.33 percent. *)
Lemma confidence_of_a_third :
  confidence_of_score (S754_finite false 6004799503160661 (-54))
    = S754_finite false 4690780486883082 (-47)
  /\ hundredths 4690780486883082 (-47) = 3333%Z.
Proof. split; vm_compute; reflexivity. Qed.

(** * Further properties *)

(** ** The extractor beyond its error string *)

Lemma str_append_nil_r (s : string) : s +:+ "" = s.
Proof.
  induction s as [|c s IH]; [reflexivity|].
  change (String c (s +:+ "") = String c s). now f_equal.
Qed.

Lemma str_append_assoc (s t u : string) : (s +:+ t) +:+ u = s +:+ t +:+ u.
Proof.
  induction s as [|c s IH]; [reflexivity|].
  change (String c ((s +:+ t) +:+ u) = String c (s +:+ t +:+ u)). now f_equal.
Qed.

Section ExtractorMore.
Context {MS : Type}.

Lemma extract_pages_join (rd : pdf_reader) (w : world MS) :
  forall (ts : list string) (a : nat) (text : string),
    (forall i t, ts !! i = Some t -> page_text rd (a + i) = Ret t) ->
    extract_pages rd (seq a (length ts)) text w = (w, Ret (text +:+ str_join ts)).
Proof.
  induction ts as [|t ts IH]; intros a text Hts.
  - cbn. unfold ret. now rewrite str_append_nil_r.
  - cbn [length seq extract_pages]. unfold bind at 1, lift at 1.
    pose proof (Hts 0 t eq_refl) as Ht. rewrite Nat.add_0_r in Ht.
    unfold page_text in Ht.
    destruct (pages_item rd a) as [page|e]; [|discriminate].
    unfold bind at 1, lift at 1. rewrite Ht.
    rewrite (IH (S a) (text +:+ t)).
    + cbn [str_join foldr]. now rewrite str_append_assoc.
    + intros i t' Hi. replace (S a + i) with (a + S i) by lia.
      now apply Hts.
Qed.

(** The body of the [try] of the extractor ends with the first failure. *)
Lemma extract_body_error (f : pdf_file) (e : pyexn) (w : world MS) :
  extraction_error f e ->
  (pdf_reader <- lift (PdfReader f) ;;
   n <- lift (pages_len pdf_reader) ;;
   extract_pages pdf_reader (seq 0 n) "") w = (w, Raise e).
Proof.
  intros [Hopen | rd Hopen Hlen | rd n k Hopen Hlen Hk Hok Hbad];
    unfold bind at 1, lift at 1; rewrite Hopen; auto;
    unfold bind at 1, lift at 1; rewrite Hlen; auto.
  apply (extract_pages_error rd e _ n 0 k ""); auto.
  intros i Hi. apply Hok. lia.
Qed.

(** X1: a document whose pages all extract gives the texts of its pages
    joined in page order with nothing between them (the empty string
    for a document without pages); the call changes nothing else. *)
Theorem extraction_joins_page_texts (f : pdf_file) (rd : pdf_reader)
    (ts : list string) (w : world MS) :
  PdfReader f = Ret rd ->
  pages_len rd = Ret (length ts) ->
  (forall i t, ts !! i = Some t -> page_text rd i = Ret t) ->
  extract__text_from_pdf f w = (log (EvExtract f) w, Ret (str_join ts)).
Proof.
  intros Hopen Hlen Hts.
  unfold extract__text_from_pdf, bind at 1, emit, try_except_Exception.
  unfold bind at 1, lift at 1. rewrite Hopen.
  unfold bind at 1, lift at 1. rewrite Hlen.
  now rewrite (extract_pages_join rd _ ts 0 "").
Qed.

(** X2: an exception that does not derive from [Exception] (a keyboard
    interrupt, a request to exit) raised while the file is parsed or a
    page is extracted is not turned into text: it leaves the
    extractor. *)
Theorem extraction_lets_interrupts_through (f : pdf_file) (e : pyexn)
    (w : world MS) :
  extraction_error f e ->
  exn_is_Exception e = false ->
  extract__text_from_pdf f w = (log (EvExtract f) w, Raise e).
Proof.
  intros Herr Hexc.
  unfold extract__text_from_pdf, bind at 1, emit, try_except_Exception.
  now rewrite (extract_body_error f e _ Herr), Hexc.
Qed.

End ExtractorMore.

Lemma extraction_joins_page_texts_witness :
  extract__text_from_pdf sky_file (fresh_world tt)
    = (log (EvExtract sky_file) (fresh_world tt), Ret (str_join sky_pages)).
Proof.
  apply (extraction_joins_page_texts sky_file sky_reader sky_pages (fresh_world tt)).
  - reflexivity.
  - reflexivity.
  - intros [|[|i]] t Hi; simpl in Hi; try discriminate;
      injection Hi as <-; reflexivity.
Defined.

Lemma extraction_lets_interrupts_through_witness :
  extract__text_from_pdf interrupted_file (fresh_world tt)
    = (log (EvExtract interrupted_file) (fresh_world tt), Raise KeyboardInterrupt).
Proof.
  apply (extraction_lets_interrupts_through interrupted_file KeyboardInterrupt
           (fresh_world tt)).
  - apply error_opening. reflexivity.
  - reflexivity.
Defined.

(** ** Loading the model *)

Section LoadingMore.
Context {MS : Type}.
Variable pipeline : string -> string -> string -> res (qa_handle MS).

(** X4: a failure of [pipeline] is handled nowhere.  With nothing
    cached, a run of lines 130-186 ends with the exception [pipeline]
    raised, whatever its class; nothing is cached, the session state is
    as before, and neither [answer_question] nor the model was called. *)
Theorem model_load_failure_ends_the_run (pdf_text user_question : string)
    (button : bool) (w : world MS) (e : pyexn) :
  w_cache w = None ->
  pipeline qa_task qa_model_id qa_tokenizer_id = Raise e ->
  let out := main_with_text pipeline pdf_text user_question button w in
  out.2 = Raise e
  /\ w_cache out.1 = None
  /\ w_session out.1 = w_session w
  /\ w_model out.1 = w_model w
  /\ answer_calls (w_trace out.1) = answer_calls (w_trace w)
  /\ model_calls (w_trace out.1) = model_calls (w_trace w).
Proof.
  intros Hcache Hfail.
  unfold main_with_text, bind, ui, emit, load_qa_model, load_qa_model_body,
    lift, log. cbn. rewrite Hcache, Hfail. cbn.
  rewrite !answer_calls_app, !model_calls_app. cbn.
  now rewrite !app_nil_r.
Qed.

End LoadingMore.

Lemma model_load_failure_ends_the_run_witness :
  let out := main_with_text no_pipeline "The sky is blue."
               "What color is the sky?" true (fresh_world tt) in
  out.2 = Raise (PyExn "OSError" true "not a valid model identifier")
  /\ w_cache out.1 = None
  /\ w_session out.1 = w_session (fresh_world tt)
  /\ w_model out.1 = w_model (fresh_world tt)
  /\ answer_calls (w_trace out.1) = answer_calls (w_trace (fresh_world tt))
  /\ model_calls (w_trace out.1) = model_calls (w_trace (fresh_world tt)).
Proof.
  apply (model_load_failure_ends_the_run no_pipeline "The sky is blue."
           "What color is the sky?" true (fresh_world tt)
           (PyExn "OSError" true "not a valid model identifier"));
    reflexivity.
Defined.

(** ** The context and the exceptions of [answer_question] *)

Section AnswerMore.
Context {MS : Type}.

(** X5: whatever the context, what reaches the model is a prefix of it
    of [min 1536 (len context)] characters (code points) that ends where
    a character ends, and cutting twice is cutting once: a caller that
    has cut the text itself gets the same invocation. *)
Theorem truncation_is_a_bounded_idempotent_prefix (question context : string)
    (qa_model : qa_handle MS) (w : world MS) :
  str_len (truncate_context context) = Nat.min 1536 (str_len context)
  /\ (exists rest, context = truncate_context context +:+ rest
                   /\ starts_a_code_point rest = true)
  /\ truncate_context (truncate_context context) = truncate_context context
  /\ model_calls
       (w_trace (answer_question question (truncate_context context) qa_model w).1)
     = model_calls (w_trace (answer_question question context qa_model w).1).
Proof.
  assert (Hlen : str_len (truncate_context context)
                 = Nat.min 1536 (str_len context)).
  { destruct (Nat.le_gt_cases (str_len context) 1536) as [Hle|Hgt].
    - rewrite truncate_context_short by exact Hle. lia.
    - rewrite truncate_context_long, str_take_length by exact Hgt. lia. }
  assert (Hidem : truncate_context (truncate_context context)
                  = truncate_context context).
  { apply truncate_context_short. rewrite Hlen. lia. }
  repeat split; auto.
  - destruct (Nat.le_gt_cases (str_len context) 1536) as [Hle|Hgt].
    + rewrite truncate_context_short by exact Hle. exists "".
      now rewrite str_append_nil_r.
    + rewrite truncate_context_long by exact Hgt. apply str_take_prefix.
  - rewrite !answer_question_result. cbn [fst w_trace].
    rewrite !model_calls_app, Hidem. reflexivity.
Qed.

(** X6: an exception of the model that does not derive from
    [Exception] leaves [answer_question] as it came, after the one
    invocation; the session state and the cached handle are as
    before. *)
Theorem model_interrupt_leaves_answer_question (question context : string)
    (qa_model : qa_handle MS) (w : world MS) (ms : MS) (e : pyexn) :
  qa_model (w_model w) question (truncate_context context) = (ms, Raise e) ->
  exn_is_Exception e = false ->
  let out := answer_question question context qa_model w in
  out.2 = Raise e
  /\ model_calls (w_trace out.1)
     = model_calls (w_trace w) ++ [(question, truncate_context context)]
  /\ w_session out.1 = w_session w
  /\ w_cache out.1 = w_cache w
  /\ w_model out.1 = ms.
Proof.
  intros Hraise Hexc. cbv zeta.
  rewrite answer_question_result, Hraise. cbn.
  rewrite Hexc, model_calls_app. auto.
Qed.

End AnswerMore.

Lemma model_interrupt_leaves_answer_question_witness :
  let out := answer_question "q" "c" interrupted_model (fresh_world tt) in
  out.2 = Raise KeyboardInterrupt
  /\ model_calls (w_trace out.1)
     = model_calls (w_trace (fresh_world tt)) ++ [("q", truncate_context "c")]
  /\ w_session out.1 = w_session (fresh_world tt)
  /\ w_cache out.1 = w_cache (fresh_world tt)
  /\ w_model out.1 = tt.
Proof.
  apply (model_interrupt_leaves_answer_question "q" "c" interrupted_model
           (fresh_world tt) tt KeyboardInterrupt); reflexivity.
Defined.

(** ** Runs of lines 130-186 *)

Section RunsMore.
Context {MS : Type}.
Variable pipeline : string -> string -> string -> res (qa_handle MS).
Implicit Types (w : world MS) (qa_model : qa_handle MS).

(** What the answer button leaves behind when it returns. *)
Lemma answer_button_effect button user_question pdf_text qa_model w w' r :
  answer_button button user_question pdf_text qa_model w = (w', Ret r) ->
  answer_calls (w_trace w')
    = answer_calls (w_trace w)
        ++ (if button && str_truthy user_question
            then [(user_question, pdf_text, qa_model)] else [])
  /\ model_calls (w_trace w')
     = model_calls (w_trace w)
         ++ (if button && str_truthy user_question
             then [(user_question, truncate_context pdf_text)] else [])
  /\ w_session w' = w_session w
  /\ w_cache w' = w_cache w.
Proof.
  unfold answer_button.
  destruct button; cbn [andb];
    [destruct (str_truthy user_question)|].
  - unfold bind at 1 2, ui at 1, emit at 1. rewrite answer_question_result.
    destruct (qa_result_of _) as [r1|e1]; [|discriminate].
    unfold bind, ui, emit, ret, log. cbn. intros [= <- <-]. cbn.
    rewrite !answer_calls_app, !model_calls_app. cbn.
    now rewrite !app_nil_r.
  - unfold bind, ui, emit, ret, log. cbn. intros [= <- <-]. cbn.
    rewrite !answer_calls_app, !model_calls_app. cbn. now rewrite !app_nil_r.
  - unfold ret. intros [= <- <-]. now rewrite !app_nil_r.
Qed.

(** What the ledger leaves behind when it returns. *)
Lemma update_history_effect user_question pdf_text qa_model result w w' :
  update_history user_question pdf_text qa_model result w = (w', Ret tt) ->
  answer_calls (w_trace w')
    = answer_calls (w_trace w)
        ++ (if str_truthy user_question
               && differs_from_last (w_session w) user_question
            then [(user_question, pdf_text, qa_model)] else [])
  /\ model_calls (w_trace w')
     = model_calls (w_trace w)
         ++ (if str_truthy user_question
                && differs_from_last (w_session w) user_question
             then [(user_question, truncate_context pdf_text)] else [])
  /\ w_cache w' = w_cache w
  /\ is_Some (history (w_session w')).
Proof.
  rewrite update_history_run.
  destruct (str_truthy user_question && _).
  - rewrite answer_question_result.
    destruct (qa_result_of _) as [r1|e1]; [|discriminate].
    intros [= <-]. cbn. rewrite !answer_calls_app, !model_calls_app. cbn.
    repeat split; eauto.
  - intros [= <-]. cbn. rewrite !app_nil_r. repeat split; eauto.
Qed.

(** The history view calls nothing and changes no state. *)
Lemma show_history_effect w w' :
  show_history w = (w', Ret tt) ->
  answer_calls (w_trace w') = answer_calls (w_trace w)
  /\ model_calls (w_trace w') = model_calls (w_trace w)
  /\ w_session w' = w_session w
  /\ w_cache w' = w_cache w.
Proof.
  destruct (history (w_session w)) as [l|] eqn:Hl.
  - rewrite (show_history_run w l Hl). intros [= <-].
    cbn [w_trace w_session w_cache].
    rewrite !answer_calls_app, !model_calls_app.
    destruct l as [|qa l]; [now rewrite !app_nil_r|].
    cbn [app answer_calls model_calls].
    destruct (draw_window_no_calls (MS:=MS) (length (qa :: l))
                (recent_window (qa :: l)) 0) as [-> ->].
    now rewrite !app_nil_r.
  - unfold show_history, bind, get_session. now rewrite Hl.
Qed.

(** X8: a run of lines 130-186 that returns has called
    [answer_question] once for the button, if it was pressed on a
    non-empty question, and once more for the history, if the question
    is non-empty and differs from the recorded last question; every call
    has the question, the full text and the cached handle as arguments
    and invokes the model once on the cut text.  So an empty question
    costs no call, and a question typed without pressing the button is
    still answered once, for the history. *)
Theorem answer_calls_of_a_run pdf_text user_question button w w' :
  main_with_text pipeline pdf_text user_question button w = (w', Ret tt) ->
  exists qa_model,
    w_cache w' = Some qa_model
    /\ answer_calls (w_trace w')
       = answer_calls (w_trace w)
           ++ (if button && str_truthy user_question
               then [(user_question, pdf_text, qa_model)] else [])
           ++ (if str_truthy user_question
                  && differs_from_last (w_session w) user_question
               then [(user_question, pdf_text, qa_model)] else [])
    /\ model_calls (w_trace w')
       = model_calls (w_trace w)
           ++ (if button && str_truthy user_question
               then [(user_question, truncate_context pdf_text)] else [])
           ++ (if str_truthy user_question
                  && differs_from_last (w_session w) user_question
               then [(user_question, truncate_context pdf_text)] else []).
Proof.
  unfold main_with_text.
  unfold bind at 1 2, ui at 1 2, emit at 1 2. unfold bind at 1.
  destruct (load_qa_model pipeline _) as [w1 [qa_model|e]] eqn:Hload;
    [|discriminate].
  assert (Hc1 : w_cache w1 = Some qa_model).
  { unfold load_qa_model in Hload. cbn [w_cache log] in Hload.
    destruct (w_cache w) as [h0|] eqn:Hw.
    - injection Hload as <- <-. exact Hw.
    - destruct (load_qa_model_body pipeline _) as [w0 [h'|e]];
        [injection Hload as <- <-; reflexivity | discriminate]. }
  apply load_qa_model_effect in Hload as (_ & Hs1 & Ha1 & Hm1).
  cbn in Hs1, Ha1, Hm1.
  rewrite answer_calls_app, answer_calls_app, app_nil_r, app_nil_r in Ha1.
  rewrite model_calls_app, model_calls_app, app_nil_r, app_nil_r in Hm1.
  unfold bind at 1 2, ui at 1 2, emit at 1 2. unfold bind at 1.
  destruct (answer_button _ _ _ _ _) as [w2 [r|e]] eqn:Hbutton; [|discriminate].
  apply answer_button_effect in Hbutton as (Ha2 & Hm2 & Hs2 & Hc2).
  cbn in Ha2, Hm2, Hs2, Hc2.
  rewrite answer_calls_app, answer_calls_app, app_nil_r, app_nil_r in Ha2.
  rewrite model_calls_app, model_calls_app, app_nil_r, app_nil_r in Hm2.
  unfold bind at 1.
  destruct (update_history _ _ _ _ _) as [w3 [[]|e]] eqn:Hupd; [|discriminate].
  apply update_history_effect in Hupd as (Ha3 & Hm3 & Hc3 & _).
  intros Hshow. apply show_history_effect in Hshow as (Ha4 & Hm4 & _ & Hc4).
  exists qa_model. rewrite Hc4, Hc3, Hc2, Hc1.
  rewrite Ha4, Ha3, Ha2, Ha1, Hm4, Hm3, Hm2, Hm1, Hs2, Hs1.
  now rewrite <- !app_assoc.
Qed.

End RunsMore.

Lemma answer_calls_of_a_run_witness :
  exists qa_model,
    w_cache sky_run.1 = Some qa_model
    /\ answer_calls (w_trace sky_run.1)
       = answer_calls (w_trace (fresh_world 0))
           ++ (if true && str_truthy "What color is the sky?"
               then [("What color is the sky?", "The sky is blue.", qa_model)]
               else [])
           ++ (if str_truthy "What color is the sky?"
                  && differs_from_last (w_session (fresh_world 0))
                       "What color is the sky?"
               then [("What color is the sky?", "The sky is blue.", qa_model)]
               else [])
    /\ model_calls (w_trace sky_run.1)
       = model_calls (w_trace (fresh_world 0))
           ++ (if true && str_truthy "What color is the sky?"
               then [("What color is the sky?", truncate_context "The sky is blue.")]
               else [])
           ++ (if str_truthy "What color is the sky?"
                  && differs_from_last (w_session (fresh_world 0))
                       "What color is the sky?"
               then [("What color is the sky?", truncate_context "The sky is blue.")]
               else []).
Proof.
  apply (answer_calls_of_a_run counting_pipeline "The sky is blue."
           "What color is the sky?" true (fresh_world 0) sky_run.1).
  vm_compute. reflexivity.
Defined.

(** ** What every run keeps *)

Section Keeping.
Context {MS : Type}.
Implicit Types (w : world MS) (qa_model : qa_handle MS).

Lemma run_keeps_bind {A B} (R : world MS -> world MS -> Prop)
    (m : M MS A) (k : A -> M MS B) :
  Transitive R ->
  run_keeps R m -> (forall a, run_keeps R (k a)) -> run_keeps R (bind m k).
Proof.
  intros Htrans Hm Hk w. unfold bind.
  specialize (Hm w). destruct (m w) as [w1 [a|e]]; cbn in *; [|exact Hm].
  exact (Htrans _ _ _ Hm (Hk a w1)).
Qed.

Lemma on_session_transitive (Rs : session_state -> session_state -> Prop) :
  Transitive Rs -> Transitive (on_session (MS:=MS) Rs).
Proof. intros Htrans w1 w2 w3. unfold on_session. apply Htrans. Qed.

Lemma same_session_keeps {A} (Rs : session_state -> session_state -> Prop)
    (m : M MS A) :
  Reflexive Rs -> run_keeps (on_session eq) m -> run_keeps (on_session Rs) m.
Proof. intros Hrefl Hm w. unfold on_session. rewrite (Hm w). apply Hrefl. Qed.

Lemma ui_same_session (c : ui_call) : run_keeps (on_session eq) (ui (MS:=MS) c).
Proof. intros w. reflexivity. Qed.

Lemma ret_same_session {A} (a : A) : run_keeps (on_session eq) (ret (MS:=MS) a).
Proof. intros w. reflexivity. Qed.

Lemma answer_question_same_session question context qa_model :
  run_keeps (on_session eq) (answer_question question context qa_model).
Proof.
  intros w. unfold on_session. now rewrite answer_question_result.
Qed.

Lemma load_qa_model_same_session
    (pipeline : string -> string -> string -> res (qa_handle MS)) :
  run_keeps (on_session eq) (load_qa_model pipeline).
Proof.
  intros w. unfold on_session, load_qa_model, load_qa_model_body, bind, emit,
    lift, ret.
  destruct (w_cache w); [reflexivity|]. cbn.
  destruct (pipeline _ _ _); reflexivity.
Qed.

Lemma answer_button_same_session button user_question pdf_text qa_model :
  run_keeps (on_session eq)
    (answer_button button user_question pdf_text qa_model).
Proof.
  pose proof (on_session_transitive eq _ : Transitive (on_session (MS:=MS) eq))
    as Htrans.
  unfold answer_button. destruct button; [|apply ret_same_session].
  destruct (str_truthy user_question);
    repeat (first [ apply ui_same_session | apply ret_same_session
                  | apply answer_question_same_session
                  | apply run_keeps_bind; [exact Htrans | | intros ?] ]).
Qed.

Lemma render_history_same_session total qas : forall i,
  run_keeps (on_session eq) (render_history (MS:=MS) total i qas).
Proof.
  intros i w. unfold on_session. now rewrite render_history_run.
Qed.

Lemma show_history_same_session : run_keeps (on_session eq) (show_history (MS:=MS)).
Proof.
  intros w. unfold on_session.
  destruct (history (w_session w)) as [l|] eqn:Hl.
  - now rewrite (show_history_run w l Hl).
  - unfold show_history, bind, get_session. now rewrite Hl.
Qed.

(** The session state the ledger leaves, however it ends: the history
    initialised and nothing else, or one entry appended for a non-empty
    question that differs from the last one. *)
Lemma update_history_session user_question pdf_text qa_model result w :
  let s := w_session w in
  let s' := w_session (update_history user_question pdf_text qa_model result w).1 in
  s' = SessionState (Some (entries s)) (last_question s)
  \/ (str_truthy user_question = true
      /\ differs_from_last s user_question = true
      /\ exists a,
           s' = SessionState
                  (Some (entries s ++ [HistoryEntry user_question (Some a)]))
                  (Some user_question)).
Proof.
  cbv zeta. rewrite update_history_run.
  destruct (str_truthy user_question) eqn:Hq; cbn [andb]; [|now left].
  destruct (differs_from_last (w_session w) user_question) eqn:Hd; [|now left].
  rewrite answer_question_result.
  destruct (qa_result_of _) as [r|e]; cbn; [right | now left].
  repeat split; auto. now exists (answer r).
Qed.

(** A relation between session states that the ledger keeps is kept by
    every run of lines 130-186. *)
Lemma main_with_text_keeps
    (pipeline : string -> string -> string -> res (qa_handle MS))
    (Rs : session_state -> session_state -> Prop) :
  Reflexive Rs -> Transitive Rs ->
  forall pdf_text user_question button,
    (forall h r,
        run_keeps (on_session Rs)
          (update_history (MS:=MS) user_question pdf_text h r)) ->
    run_keeps (on_session Rs)
      (main_with_text pipeline pdf_text user_question button).
Proof.
  intros Hrefl Htrans pdf_text user_question button Hupd.
  pose proof (on_session_transitive Rs Htrans) as HT.
  unfold main_with_text.
  repeat (first
    [ apply Hupd
    | apply same_session_keeps;
      [ exact Hrefl
      | first [ apply ui_same_session | apply load_qa_model_same_session
              | apply answer_button_same_session
              | apply show_history_same_session ] ]
    | apply run_keeps_bind; [exact HT | | intros ?] ]).
Qed.

(** X9: the history is append-only.  However a run of lines 130-186
    ends, with an answer, an error answer or an exception, the entries
    it found are still there, unchanged and in order, at the head of the
    history it leaves. *)
Theorem history_is_append_only
    (pipeline : string -> string -> string -> res (qa_handle MS))
    (pdf_text user_question : string) (button : bool) w :
  history_extended w (main_with_text pipeline pdf_text user_question button w).1.
Proof.
  apply (main_with_text_keeps pipeline history_grown).
  - intros s. unfold history_grown. reflexivity.
  - intros s1 s2 s3. unfold history_grown. apply transitivity.
  - intros h r w0. unfold on_session, history_grown.
    destruct (update_history_session user_question pdf_text h r w0)
      as [-> | (_ & _ & a & ->)]; cbn.
    + reflexivity.
    + now apply prefix_app_r.
Qed.

Lemma ledger_consistent_append (s : session_state) (q a : string) :
  ledger_consistent s ->
  str_truthy q = true ->
  differs_from_last s q = true ->
  ledger_consistent
    (SessionState (Some (entries s ++ [HistoryEntry q (Some a)])) (Some q)).
Proof.
  intros (Hall & Hlast & Hadj) Hq Hd. unfold ledger_consistent, entries in *.
  set (l := default [] (history s)) in *.
  cbn [history last_question default from_option id].
  rewrite fmap_app. cbn [fmap list_fmap h_question].
  repeat split.
  - apply Forall_app. split; [exact Hall|].
    constructor; [|constructor]. cbn. eauto.
  - now rewrite last_snoc.
  - intros i q1 q2 H1 H2.
    destruct (decide (S i < length (h_question <$> l))) as [Hin|Hout].
    + rewrite lookup_app_l in H1, H2 by lia. eauto.
    + destruct (decide (S i = length (h_question <$> l))) as [Heq|Hne].
      * rewrite lookup_app_l in H1 by lia.
        rewrite lookup_app_r, Heq, Nat.sub_diag in H2 by lia.
        injection H2 as <-.
        assert (Hl : last (h_question <$> l) = Some q1).
        { rewrite last_lookup, <- Heq. exact H1. }
        rewrite <- Hlast in Hl. intros ->.
        apply differs_from_last_same in Hl. congruence.
      * apply lookup_lt_Some in H2. rewrite length_app in H2. cbn in H2. lia.
Qed.

Lemma fresh_session_consistent : ledger_consistent fresh_session.
Proof.
  repeat split; [constructor | intros i q1 q2 H; discriminate].
Qed.

(** X10: every run of lines 130-186 keeps the ledger consistent,
    however the run ends: each entry has a non-empty question and an
    answer that is present (never [None]), the recorded last question is
    the question of the latest entry, and no question stands twice in a
    row in the history. *)
Theorem ledger_stays_consistent
    (pipeline : string -> string -> string -> res (qa_handle MS))
    (pdf_text user_question : string) (button : bool) w :
  ledger_consistent (w_session w) ->
  ledger_consistent
    (w_session (main_with_text pipeline pdf_text user_question button w).1).
Proof.
  apply (main_with_text_keeps pipeline consistency_kept).
  - intros s Hs. exact Hs.
  - intros s1 s2 s3 H12 H23 Hs. auto.
  - intros h r w0. unfold on_session, consistency_kept.
    destruct (update_history_session user_question pdf_text h r w0)
      as [-> | (Hq & Hd & a & ->)].
    + intros Hs. exact Hs.
    + intros Hs. now apply ledger_consistent_append.
Qed.

(** With an empty question the ledger only initialises the history. *)
Lemma update_history_empty_question pdf_text qa_model result w :
  update_history "" pdf_text qa_model result w
    = (set_session
         (SessionState (Some (entries (w_session w)))
            (last_question (w_session w))) w,
       Ret tt).
Proof. now rewrite update_history_run. Qed.

Lemma no_new_calls_transitive : Transitive (no_new_calls (MS:=MS)).
Proof.
  intros w1 w2 w3 [Ha Hm] [Ha' Hm']. split; congruence.
Qed.

Lemma ui_no_new_calls (c : ui_call) : run_keeps no_new_calls (ui (MS:=MS) c).
Proof.
  intros w. unfold no_new_calls, ui, emit, log. cbn.
  rewrite answer_calls_app, model_calls_app. cbn. now rewrite !app_nil_r.
Qed.

Lemma load_qa_model_no_new_calls
    (pipeline : string -> string -> string -> res (qa_handle MS)) :
  run_keeps no_new_calls (load_qa_model pipeline).
Proof.
  intros w. unfold no_new_calls, load_qa_model, load_qa_model_body, bind, emit,
    lift, ret, log.
  destruct (w_cache w); [auto|]. cbn.
  destruct (pipeline _ _ _); cbn;
    rewrite answer_calls_app, model_calls_app; cbn; now rewrite !app_nil_r.
Qed.

Lemma show_history_no_new_calls : run_keeps no_new_calls (show_history (MS:=MS)).
Proof.
  intros w. unfold no_new_calls.
  destruct (history (w_session w)) as [l|] eqn:Hl.
  - rewrite (show_history_run w l Hl). cbn [fst w_trace].
    rewrite !answer_calls_app, !model_calls_app.
    destruct l as [|qa l]; [now rewrite !app_nil_r|].
    cbn [app answer_calls model_calls].
    destruct (draw_window_no_calls (MS:=MS) (length (qa :: l))
                (recent_window (qa :: l)) 0) as [-> ->].
    now rewrite !app_nil_r.
  - unfold show_history, bind, get_session. rewrite Hl. split; reflexivity.
Qed.

(** X11: an empty question changes nothing.  A run of lines 130-186
    with an empty question, the button pressed or not, calls neither
    [answer_question] nor the model, and leaves the entries of the
    history and the recorded last question as they were. *)
Theorem empty_question_changes_nothing
    (pipeline : string -> string -> string -> res (qa_handle MS))
    (pdf_text : string) (button : bool) w :
  let out := main_with_text pipeline pdf_text "" button w in
  answer_calls (w_trace out.1) = answer_calls (w_trace w)
  /\ model_calls (w_trace out.1) = model_calls (w_trace w)
  /\ entries (w_session out.1) = entries (w_session w)
  /\ last_question (w_session out.1) = last_question (w_session w).
Proof.
  cbv zeta.
  assert (Hbutton : forall h : qa_handle MS,
            run_keeps no_new_calls (answer_button button "" pdf_text h)).
  { intros h w0. unfold answer_button. destruct button; [|split; reflexivity].
    cbn [str_truthy]. apply run_keeps_bind;
      [exact no_new_calls_transitive | apply ui_no_new_calls |].
    intros ? w1. split; reflexivity. }
  assert (Hupd : forall (h : qa_handle MS) r,
            run_keeps no_new_calls (update_history "" pdf_text h r)).
  { intros h r w0. rewrite update_history_empty_question. split; reflexivity. }
  assert (Hcalls : run_keeps no_new_calls
                     (main_with_text pipeline pdf_text "" button)).
  { unfold main_with_text.
    repeat (first
      [ apply Hbutton | apply Hupd
      | apply ui_no_new_calls | apply load_qa_model_no_new_calls
      | apply show_history_no_new_calls
      | apply run_keeps_bind; [exact no_new_calls_transitive | | intros ?] ]). }
  assert (Hledger : run_keeps (on_session same_ledger)
                      (main_with_text pipeline pdf_text "" button)).
  { apply main_with_text_keeps.
    - intros s. split; reflexivity.
    - intros s1 s2 s3 [H1 H2] [H3 H4]. split; congruence.
    - intros h r w0. unfold on_session. rewrite update_history_empty_question.
      split; reflexivity. }
  destruct (Hcalls w) as [Ha Hm]. destruct (Hledger w) as [He Hl].
  auto.
Qed.

End Keeping.

Lemma ledger_stays_consistent_witness :
  ledger_consistent (w_session sky_run.1).
Proof.
  apply (ledger_stays_consistent counting_pipeline "The sky is blue."
           "What color is the sky?" true (fresh_world 0)).
  exact fresh_session_consistent.
Defined.

(** ** The history view, entry by entry *)

Section ViewMore.
Context {MS : Type}.
Implicit Types (w : world MS) (l : list history_entry).

Lemma drawn_entry_lookup l i qa :
  (i, qa) ∈ drawn_entries l ->
  recent_window l !! i = Some qa /\ answer_truthy qa = true.
Proof.
  unfold drawn_entries. intros Hin.
  apply list_elem_of_filter in Hin as [Htruthy Hin].
  apply list_elem_of_lookup in Hin as [j Hj].
  apply lookup_zip_Some in Hj as [Hseq Hwin].
  apply lookup_seq in Hseq as [-> _]. auto.
Qed.

(** X12: the number drawn with an entry is its position in the full
    history, counted from 1, not its place in the window of five: the
    entry drawn at index [i] of the window is entry
    [len(history) - i] of the history, it is one of the last five, and
    its answer is non-empty. *)
Theorem drawn_number_is_history_position l i qa :
  (i, qa) ∈ drawn_entries l ->
  exists n,
    l !! n = Some qa
    /\ length l - 5 <= n < length l
    /\ answer_truthy qa = true
    /\ draw_entry (MS:=MS) (length l) i qa
       = [ EvUi (st_markdown ("**Q" +:+ str_of_int (Z.of_nat n + 1)
                              +:+ ":** " +:+ h_question qa));
           EvUi (st_markdown ("**A:** " +:+ default "" (h_answer qa)));
           EvUi (st_markdown "") ].
Proof.
  intros Hin. apply drawn_entry_lookup in Hin as [Hwin Htruthy].
  unfold recent_window, last5 in Hwin.
  apply reverse_lookup_Some in Hwin as [Hdrop Hi].
  rewrite lookup_drop in Hdrop. rewrite length_drop in Hdrop, Hi.
  exists (length l - 5 + (length l - (length l - 5) - S i)).
  repeat split; auto; try lia.
  unfold draw_entry. repeat f_equal. lia.
Qed.

Lemma rendered_history_snoc l x :
  answer_truthy x = true ->
  rendered_history (l ++ [x])
    = x :: filter (fun qa => answer_truthy qa = true)
             (reverse (drop (S (length l) - 5) l)).
Proof.
  intros Hx. unfold rendered_history, recent_window, last5.
  rewrite length_app. cbn [length].
  replace (length l + 1 - 5) with (S (length l) - 5) by lia.
  rewrite drop_app_le by lia. rewrite reverse_snoc.
  now rewrite filter_cons_True by exact Hx.
Qed.

(** X13: a new entry with a non-empty answer is drawn first, and under
    it the view is the previous view or the previous view without its
    oldest item. *)
Theorem newest_entry_is_drawn_first l x :
  answer_truthy x = true ->
  exists rest,
    rendered_history (l ++ [x]) = x :: rest
    /\ rest `prefix_of` rendered_history l
    /\ length (rendered_history l) <= S (length rest).
Proof.
  intros Hx. rewrite (rendered_history_snoc l x Hx).
  eexists. split; [reflexivity|].
  unfold rendered_history, recent_window, last5.
  destruct (decide (length l < 5)) as [Hshort|Hlong].
  - replace (S (length l) - 5) with 0 by lia.
    replace (length l - 5) with 0 by lia. split; [reflexivity | lia].
  - replace (S (length l) - 5) with (S (length l - 5)) by lia.
    assert (Hsplit : drop (length l - 5) l
                     = take 1 (drop (length l - 5) l) ++ drop (S (length l - 5)) l).
    { rewrite <- (take_drop 1 (drop (length l - 5) l)) at 1.
      now rewrite drop_drop, Nat.add_1_r. }
    set (oldest := take 1 (drop (length l - 5) l)) in *.
    assert (Hone : length oldest <= 1).
    { subst oldest. rewrite length_take. lia. }
    rewrite Hsplit, reverse_app, filter_app. split.
    + now apply prefix_app_r.
    + rewrite length_app.
      pose proof (length_filter (fun qa => answer_truthy qa = true)
                    (reverse oldest)) as Hf.
      rewrite length_reverse in Hf. lia.
Qed.

(** X14: a failed inference is kept and shown.  When the model fails
    with an ordinary error on a new non-empty question, the ledger
    returns normally, the history gets the entry
    [(question, "Error: <str(e)>")], and the view draws that entry
    first. *)
Theorem failed_answer_is_recorded_and_drawn (user_question pdf_text : string)
    (qa_model : qa_handle MS) (result : option qa_result) w (ms : MS)
    (e : pyexn) :
  str_truthy user_question = true ->
  last_question (w_session w) <> Some user_question ->
  qa_model (w_model w) user_question (truncate_context pdf_text) = (ms, Raise e) ->
  exn_is_Exception e = true ->
  let out := update_history user_question pdf_text qa_model result w in
  let failed := HistoryEntry user_question (Some ("Error: " +:+ exn_str e)) in
  out.2 = Ret tt
  /\ entries (w_session out.1) = entries (w_session w) ++ [failed]
  /\ exists rest, rendered_history (entries (w_session out.1)) = failed :: rest.
Proof.
  intros Hq Hnew Hraise Hexc. cbv zeta.
  assert (Hd : differs_from_last (w_session w) user_question = true).
  { destruct (differs_from_last _ _) eqn:Hd; [reflexivity|].
    now apply differs_from_last_false in Hd. }
  rewrite update_history_run, Hq, Hd. cbn [andb].
  rewrite answer_question_result. cbn [w_model set_session].
  rewrite Hraise. cbn [snd qa_result_of]. rewrite Hexc.
  cbn [fst snd w_session set_session answer entries history default
       from_option id].
  repeat split.
  rewrite rendered_history_snoc by reflexivity. eauto.
Qed.

End ViewMore.

Lemma drawn_number_is_history_position_witness :
  exists n,
    blue_then_empty !! n = Some blue_entry
    /\ length blue_then_empty - 5 <= n < length blue_then_empty
    /\ answer_truthy blue_entry = true
    /\ draw_entry (MS:=unit) (length blue_then_empty) 1 blue_entry
       = [ EvUi (st_markdown ("**Q" +:+ str_of_int (Z.of_nat n + 1)
                              +:+ ":** " +:+ h_question blue_entry));
           EvUi (st_markdown ("**A:** " +:+ default "" (h_answer blue_entry)));
           EvUi (st_markdown "") ].
Proof.
  apply (drawn_number_is_history_position (MS:=unit) blue_then_empty 1 blue_entry).
  vm_compute. left.
Defined.

Lemma newest_entry_is_drawn_first_witness :
  exists rest,
    rendered_history ([empty_entry] ++ [blue_entry]) = blue_entry :: rest
    /\ rest `prefix_of` rendered_history [empty_entry]
    /\ length (rendered_history [empty_entry]) <= S (length rest).
Proof.
  apply (newest_entry_is_drawn_first [empty_entry] blue_entry). reflexivity.
Defined.

Lemma failed_answer_is_recorded_and_drawn_witness :
  let out := update_history "q" "c" failing_model None (fresh_world tt) in
  let failed := HistoryEntry "q" (Some ("Error: " +:+ "bad input")) in
  out.2 = Ret tt
  /\ entries (w_session out.1) = entries (w_session (fresh_world tt)) ++ [failed]
  /\ exists rest, rendered_history (entries (w_session out.1)) = failed :: rest.
Proof.
  apply (failed_answer_is_recorded_and_drawn "q" "c" failing_model None
           (fresh_world tt) tt (PyExn "ValueError" true "bad input")).
  - reflexivity.
  - discriminate.
  - reflexivity.
  - reflexivity.
Defined.

(** ** Runs that return *)

Section Returning.
Context {MS : Type}.
Variable pipeline : string -> string -> string -> res (qa_handle MS).
Implicit Types (w : world MS) (qa_model : qa_handle MS).

Lemma qa_result_of_errors_only qa_model ms q c :
  raises_errors_only qa_model ->
  exists r, qa_result_of (qa_model ms q c).2 = Ret r.
Proof.
  intros Hmodel. destruct (qa_model ms q c) as [ms' [out|e]] eqn:Hcall; cbn.
  - eauto.
  - rewrite (Hmodel _ _ _ _ _ Hcall). eauto.
Qed.

Lemma answer_button_returns button user_question pdf_text qa_model w :
  raises_errors_only qa_model ->
  exists r,
    (answer_button button user_question pdf_text qa_model w).2 = Ret r.
Proof.
  intros Hmodel. unfold answer_button.
  destruct button; [|eexists; reflexivity].
  destruct (str_truthy user_question); [|eexists; reflexivity].
  unfold bind at 1 2, ui at 1, emit at 1. rewrite answer_question_result.
  destruct (qa_result_of_errors_only qa_model
              (w_model (log (EvUi (st_spinner "Thinking....")) w))
              user_question (truncate_context pdf_text) Hmodel) as [r Hr].
  rewrite Hr. eexists. reflexivity.
Qed.

Lemma update_history_returns user_question pdf_text qa_model result w :
  raises_errors_only qa_model ->
  (update_history user_question pdf_text qa_model result w).2 = Ret tt.
Proof.
  intros Hmodel. rewrite update_history_run.
  destruct (str_truthy user_question && _); [|reflexivity].
  rewrite answer_question_result.
  destruct (qa_result_of_errors_only qa_model
              (w_model (set_session
                          (SessionState (Some (entries (w_session w)))
                             (last_question (w_session w))) w))
              user_question (truncate_context pdf_text) Hmodel) as [r Hr].
  now rewrite Hr.
Qed.

(** X15: an inference error does not end the run.  When a handle is
    cached or [pipeline] builds one, and that handle fails with
    ordinary errors only, every run of lines 130-186 returns normally,
    whatever the text, the question and the button. *)
Theorem run_returns_when_model_only_errs (pdf_text user_question : string)
    (button : bool) w qa_model :
  (w_cache w = Some qa_model
   \/ (w_cache w = None
       /\ pipeline qa_task qa_model_id qa_tokenizer_id = Ret qa_model)) ->
  raises_errors_only qa_model ->
  (main_with_text pipeline pdf_text user_question button w).2 = Ret tt.
Proof.
  intros Hload Hmodel. unfold main_with_text.
  unfold bind at 1 2, ui at 1 2, emit at 1 2. unfold bind at 1.
  assert (Hl : exists w1,
            load_qa_model pipeline
              (log (EvUi (st_spinner "Loading AI model..."))
                 (log (EvUi (st_text_area "PDF Content" pdf_text)) w))
            = (w1, Ret qa_model)).
  { unfold load_qa_model, load_qa_model_body, bind, emit, lift, ret.
    cbn [w_cache log].
    destruct Hload as [-> | [-> ->]]; eexists; reflexivity. }
  destruct Hl as [w1 ->].
  unfold bind at 1 2, ui at 1 2, emit at 1 2. unfold bind at 1.
  destruct (answer_button_returns button user_question pdf_text qa_model
              (log (EvUi (st_subheader "Ask a Question"))
                 (log (EvUi (st_success "Ready to answer questions!")) w1))
              Hmodel) as [r Hr].
  destruct (answer_button _ _ _ _ _) as [w2 rb]. cbn [snd] in Hr. subst rb.
  unfold bind at 1.
  pose proof (update_history_returns user_question pdf_text qa_model r w2 Hmodel)
    as Hu.
  destruct (update_history _ _ _ _ _) as [w3 ru] eqn:Hupd. cbn [snd] in Hu.
  subst ru.
  apply update_history_effect in Hupd as (_ & _ & _ & [l Hl]).
  now rewrite (show_history_run w3 l Hl).
Qed.

End Returning.

Lemma run_returns_when_model_only_errs_witness :
  (main_with_text (fun _ _ _ => Ret failing_model) "The sky is blue."
     "What color is the sky?" true (fresh_world tt)).2 = Ret tt.
Proof.
  apply (run_returns_when_model_only_errs (fun _ _ _ => Ret failing_model)
           "The sky is blue." "What color is the sky?" true (fresh_world tt)
           failing_model).
  - right. split; reflexivity.
  - intros ms q c ms' e [= _ <-]. reflexivity.
Defined.

(** ** The model is loaded once *)

Section LoadedOnce.
Context {MS : Type}.
Variable pipeline : string -> string -> string -> res (qa_handle MS).
Implicit Types (w : world MS) (qa_model : qa_handle MS).

Lemma model_stays_loaded_transitive : Transitive (model_stays_loaded (MS:=MS)).
Proof.
  intros w1 w2 w3 H12 H23 Hc. destruct (H12 Hc) as [Hc2 Hp2].
  destruct H23 as [Hc3 Hp3]; [now rewrite Hc2|]. split; congruence.
Qed.

Lemma emit_stays_loaded (ev : event MS) :
  pipeline_calls [ev] = [] -> run_keeps model_stays_loaded (emit ev).
Proof.
  intros Hev w _. unfold emit, log. cbn.
  now rewrite pipeline_calls_app, Hev, app_nil_r.
Qed.

Lemma same_state_stays_loaded {A} (m : M MS A) :
  (forall w, w_cache (m w).1 = w_cache w /\ w_trace (m w).1 = w_trace w) ->
  run_keeps model_stays_loaded m.
Proof. intros Hm w _. destruct (Hm w) as [-> ->]. auto. Qed.

Lemma draw_window_no_pipeline total qas : forall i,
  pipeline_calls (draw_window (MS:=MS) total i qas) = [].
Proof.
  induction qas as [|qa qas IH]; intros i; [reflexivity|].
  cbn [draw_window]. rewrite pipeline_calls_app, IH.
  now destruct (answer_truthy qa).
Qed.

Lemma answer_question_stays_loaded question context qa_model :
  run_keeps model_stays_loaded (answer_question question context qa_model).
Proof.
  intros w _. rewrite answer_question_result. cbn.
  now rewrite pipeline_calls_app, app_nil_r.
Qed.

Lemma show_history_stays_loaded :
  run_keeps model_stays_loaded (show_history (MS:=MS)).
Proof.
  intros w _.
  destruct (history (w_session w)) as [l|] eqn:Hl.
  - rewrite (show_history_run w l Hl). cbn [fst w_trace w_cache].
    rewrite pipeline_calls_app.
    destruct l as [|qa l]; [now rewrite app_nil_r|].
    cbn [app pipeline_calls]. now rewrite draw_window_no_pipeline, app_nil_r.
  - unfold show_history, bind, get_session. rewrite Hl. auto.
Qed.

Lemma update_history_stays_loaded user_question pdf_text qa_model result :
  run_keeps model_stays_loaded
    (update_history user_question pdf_text qa_model result).
Proof.
  intros w Hc. rewrite update_history_run.
  destruct (str_truthy user_question && _); [|auto].
  rewrite answer_question_result.
  destruct (qa_result_of _); cbn; now rewrite pipeline_calls_app, app_nil_r.
Qed.

Lemma answer_button_stays_loaded button user_question pdf_text qa_model :
  run_keeps model_stays_loaded
    (answer_button button user_question pdf_text qa_model).
Proof.
  unfold answer_button.
  destruct button; [|apply same_state_stays_loaded; auto].
  destruct (str_truthy user_question);
    repeat (first
      [ apply answer_question_stays_loaded
      | apply emit_stays_loaded; reflexivity
      | apply same_state_stays_loaded; solve [auto]
      | apply run_keeps_bind;
        [exact model_stays_loaded_transitive | | intros ?] ]).
Qed.

Lemma load_qa_model_stays_loaded :
  run_keeps model_stays_loaded (load_qa_model pipeline).
Proof.
  intros w [h Hc]. unfold load_qa_model. now rewrite Hc.
Qed.

(** X16: the model is loaded once.  After a run of lines 130-186 that
    returned, no later run calls [pipeline] again, and the cached handle
    stays the one that run used, however the later run ends. *)
Theorem later_runs_do_not_reload (pdf_text user_question : string)
    (button : bool) w w' (pdf_text' user_question' : string) (button' : bool) :
  main_with_text pipeline pdf_text user_question button w = (w', Ret tt) ->
  let out := main_with_text pipeline pdf_text' user_question' button' w' in
  w_cache out.1 = w_cache w'
  /\ pipeline_calls (w_trace out.1) = pipeline_calls (w_trace w').
Proof.
  intros Hrun. cbv zeta.
  assert (Hc : is_Some (w_cache w')).
  { revert Hrun. unfold main_with_text.
    unfold bind at 1 2, ui at 1 2, emit at 1 2. unfold bind at 1.
    destruct (load_qa_model pipeline _) as [w1 [qa_model|e]] eqn:Hload;
      [|discriminate].
    assert (Hc1 : w_cache w1 = Some qa_model).
    { unfold load_qa_model in Hload. cbn [w_cache log] in Hload.
      destruct (w_cache w) as [h0|] eqn:Hw.
      - injection Hload as <- <-. exact Hw.
      - destruct (load_qa_model_body pipeline _) as [w0 [h'|e]];
          [injection Hload as <- <-; reflexivity | discriminate]. }
    unfold bind at 1 2, ui at 1 2, emit at 1 2. unfold bind at 1.
    destruct (answer_button _ _ _ _ _) as [w2 [r|e]] eqn:Hbutton; [|discriminate].
    apply answer_button_effect in Hbutton as (_ & _ & _ & Hc2).
    unfold bind at 1.
    destruct (update_history _ _ _ _ _) as [w3 [[]|e]] eqn:Hupd; [|discriminate].
    apply update_history_effect in Hupd as (_ & _ & Hc3 & _).
    intros Hshow. apply show_history_effect in Hshow as (_ & _ & _ & Hc4).
    rewrite Hc4, Hc3, Hc2. cbn. rewrite Hc1. eauto. }
  assert (Hkeeps : run_keeps model_stays_loaded
                     (main_with_text pipeline pdf_text' user_question' button')).
  { unfold main_with_text.
    repeat (first
      [ apply answer_button_stays_loaded | apply update_history_stays_loaded
      | apply show_history_stays_loaded | apply load_qa_model_stays_loaded
      | apply emit_stays_loaded; reflexivity
      | apply run_keeps_bind;
        [exact model_stays_loaded_transitive | | intros ?] ]). }
  exact (Hkeeps w' Hc).
Qed.

End LoadedOnce.

Lemma later_runs_do_not_reload_witness :
  let out := main_with_text counting_pipeline "The sky is blue."
               "What color is the grass?" false sky_run.1 in
  w_cache out.1 = w_cache sky_run.1
  /\ pipeline_calls (w_trace out.1) = pipeline_calls (w_trace sky_run.1).
Proof.
  apply (later_runs_do_not_reload counting_pipeline "The sky is blue."
           "What color is the sky?" true (fresh_world 0) sky_run.1
           "The sky is blue." "What color is the grass?" false).
  vm_compute. reflexivity.
Defined.
